(** * Belt-stage aggregation and alert scoping of the airport dashboard

    A shallow embedding of the stage functions of [static/js/dashboard.js]
    (class [AirportDashboard]; class [StaffPortal] carries a second copy of
    the same stage functions) and of the alert scope filter, followed
    by the properties proved about them.

    The functions read two fields of the dashboard object, [beltStages] and
    [alertScopes]; they take the object as their first argument [this].
    Functions that can raise a [TypeError] return a [result]. *)

From Stdlib Require Import ZArith QArith List String Ascii Bool Arith Lia Lqa.
From Stdlib Require Import Permutation SpecFloat.
Import ListNotations.

Open Scope nat_scope.

(* ================================================================== *)
(** * The fragment of JavaScript the functions rely on *)
(* ================================================================== *)

Module JS.

(** ** Numbers

    A JavaScript number is an IEEE double.  The code only compares numbers,
    and comparison of finite doubles is comparison of the rationals they
    denote, so a finite number is represented by a rational ([-0] and [+0]
    are both [Fin 0]); every statement below that quantifies over [Q]
    covers in particular every finite double. *)

Inductive num : Type :=
| NaN
| NegInf
| Fin (q : Q)
| PosInf.

Definition Qlt_bool (a b : Q) : bool := negb (Qle_bool b a).

(** [Number::lessThan(x, y)]: [None] stands for the result [undefined]. *)
Definition lessThan (x y : num) : option bool :=
  match x, y with
  | NaN, _ => None
  | _, NaN => None
  | PosInf, _ => Some false
  | _, PosInf => Some true
  | _, NegInf => Some false
  | NegInf, _ => Some true
  | Fin a, Fin b => Some (Qlt_bool a b)
  end.

(** The operators [x < y] and [x >= y] on numbers. *)
Definition js_lt (x y : num) : bool :=
  match lessThan x y with
  | Some true => true
  | _ => false
  end.

Definition js_ge (x y : num) : bool :=
  match lessThan x y with
  | Some false => true
  | _ => false
  end.

(** ** Values

    The values a JSON snapshot can put in a field the code compares with a
    number.  A string, an array or a plain object is observed by the code
    only through the numeric coercion of [>=] and [<], so it is represented
    by the number [ToNumber] yields on it ([Coercible NaN] for ["abc"],
    [Coercible (Fin 30)] for ["30"]). *)

Inductive value : Type :=
| Undefined
| Null
| Boolean (b : bool)
| Number (n : num)
| Coercible (n : num).

Definition ToNumber (v : value) : num :=
  match v with
  | Undefined => NaN
  | Null => Fin 0
  | Boolean true => Fin 1
  | Boolean false => Fin 0
  | Number n => n
  | Coercible n => n
  end.

(** [v === 0]: strict equality with the number zero. *)
Definition strict_eq_zero (v : value) : bool :=
  match v with
  | Number (Fin q) => Qeq_bool q 0
  | _ => false
  end.

(** ** Exceptions *)

Inductive exn : Type := TypeError.

Inductive result (A : Type) : Type :=
| Ok (a : A)
| Throw (e : exn).

Arguments Ok {A} a.
Arguments Throw {A} e.

Definition bind {A B : Type} (m : result A) (k : A -> result B) : result B :=
  match m with
  | Ok a => k a
  | Throw e => Throw e
  end.

(** [Array.prototype.forEach] with a callback that updates a captured
    object: the object is threaded through the calls, and an exception
    raised by the callback ends the loop. *)
Fixpoint forEach {A S : Type} (f : S -> A -> result S) (l : list A) (s : S)
  : result S :=
  match l with
  | [] => Ok s
  | x :: r => bind (f s x) (forEach f r)
  end.

(** ** Objects used as maps from property names to counts

    Own properties in creation order.  [obj_set] is the assignment
    [o[k] = v] of a number: it updates an own property in place, creates a
    new one at the end, and for the name [__proto__] (when it is not an own
    property) reaches the prototype setter, which ignores a number.
    [obj_get] is the own-property lookup; a name that is not an own property
    yields [undefined] or a function or object inherited from
    [Object.prototype], never a number. *)

Definition object : Type := list (string * nat).

Fixpoint obj_set (k : string) (v : nat) (o : object) : object :=
  match o with
  | [] => if String.eqb k "__proto__" then [] else [(k, v)]
  | (k', v') :: r =>
      if String.eqb k' k then (k, v) :: r else (k', v') :: obj_set k v r
  end.

Fixpoint obj_get (k : string) (o : object) : option nat :=
  match o with
  | [] => None
  | (k', v') :: r => if String.eqb k' k then Some v' else obj_get k r
  end.

(** Array indices: the canonical decimal strings of the integers
    0 .. 2^32 - 2.  [Object.entries] lists them first, in ascending numeric
    order, and the other names after them in creation order. *)

Definition digit_val (c : ascii) : option N :=
  let n := N_of_ascii c in
  if ((48 <=? n) && (n <=? 57))%N then Some (n - 48)%N else None.

Fixpoint digits_val (s : string) (acc : N) : option N :=
  match s with
  | EmptyString => Some acc
  | String c r =>
      match digit_val c with
      | Some d => digits_val r (10 * acc + d)%N
      | None => None
      end
  end.

Definition array_index (s : string) : option N :=
  match s with
  | EmptyString => None
  | String "0"%char EmptyString => Some 0%N
  | String "0"%char _ => None
  | _ =>
      match digits_val s 0%N with
      | Some n => if (n <=? 4294967294)%N then Some n else None
      | None => None
      end
  end.

Definition is_array_index (s : string) : bool :=
  match array_index s with
  | Some _ => true
  | None => false
  end.

Fixpoint insert_index (e : N * (string * nat)) (l : list (N * (string * nat)))
  : list (N * (string * nat)) :=
  match l with
  | [] => [e]
  | h :: t => if (fst e <=? fst h)%N then e :: l else h :: insert_index e t
  end.

Definition index_entries (o : object) : list (N * (string * nat)) :=
  fold_right insert_index []
    (flat_map (fun kv => match array_index (fst kv) with
                         | Some n => [(n, kv)]
                         | None => []
                         end) o).

Definition Object_entries (o : object) : list (string * nat) :=
  map snd (index_entries o)
  ++ filter (fun kv => negb (is_array_index (fst kv))) o.

Definition Object_keys (o : object) : list string :=
  map fst (Object_entries o).

Definition Object_values (o : object) : list nat :=
  map snd (Object_entries o).

End JS.

Import JS.

Notation "x <- m ;; k" := (bind m (fun x => k))
  (at level 61, m at next level, right associativity).

(* ================================================================== *)
(** * The dashboard *)
(* ================================================================== *)

Module AirportDashboard.

(** ** Data *)

(** An entry of [this.beltStages]. *)
Record Stage : Type := {
  id : string;
  label : string;
  description : string;
  icon : string;
  start : num;
  end_ : num
}.

(** A bag of [belt.bags_on_belt]; [position] is what [bag.position]
    evaluates to ([Undefined] when the field is missing). *)
Record Bag : Type := {
  bag_id : string;
  position : value
}.

(** The field [bags_on_belt] of a belt, as [Array.isArray] sees it.  An
    element of the array is [None] when it is [null] (reading [.position]
    from it raises a [TypeError]); any other element is a bag, with
    position [Undefined] when it has no such field. *)
Inductive bags_field : Type :=
| BagsNotArray
| BagsArray (bags : list (option Bag)).

(** A belt of the snapshot, reduced to its id and the field the stage
    functions read (a truthy value that is not an object has no
    [bags_on_belt], hence [BagsNotArray]). *)
Record Belt : Type := {
  belt_id : string;
  bags_on_belt : bags_field
}.

(** The field [scope] of an alert: falsy (missing, [null], ...), a truthy
    value that is not an array, or an array of tags. *)
Inductive scope_field : Type :=
| ScopeFalsy
| ScopeNotArray
| ScopeArray (tags : list string).

Record Alert : Type := {
  alert_id : string;
  alert_type : string;
  priority : string;
  message : string;
  timestamp : string;
  scope : scope_field
}.

(** [window.dashboardConfig], reduced to the field the constructor reads. *)
Record Config : Type := {
  config_alertScopes : scope_field
}.

(** The fields of the dashboard object the functions below read. *)
Record Dashboard : Type := {
  alertScopes : list string;
  beltStages : list Stage
}.

(** The four stages of the table the constructor installs. *)
Definition checkingStage : Stage :=
  {| id := "checking"; label := "Check-In & Tagging";
     description := "Bags dropped and tagged";
     icon := "fas fa-clipboard-check";
     start := Fin 0; end_ := Fin 25 |}.

Definition sortingStage : Stage :=
  {| id := "sorting"; label := "Automated Sorting";
     description := "Intelligent diverters align bags";
     icon := "fas fa-diagram-project";
     start := Fin 25; end_ := Fin 50 |}.

Definition securityStage : Stage :=
  {| id := "security"; label := "Security Screening";
     description := "Explosive trace & X-ray scanning";
     icon := "fas fa-shield-halved";
     start := Fin 50; end_ := Fin 75 |}.

Definition boardingStage : Stage :=
  {| id := "boarding"; label := "Gate Boarding";
     description := "Loaded on dollies and trolleys";
     icon := "fas fa-plane-departure";
     start := Fin 75; end_ := Fin 100 |}.

Definition defaultBeltStages : list Stage :=
  [checkingStage; sortingStage; securityStage; boardingStage].

(** [constructor]: [windowConfig] is [window.dashboardConfig] ([None] when
    it is not set). *)
Definition constructor (windowConfig : option Config) : Dashboard :=
  let scopes :=
    match windowConfig with
    | Some config =>
        match config_alertScopes config with
        | ScopeArray (t :: ts) => t :: ts
        | _ => ["all"%string]
        end
    | None => ["all"%string]
    end in
  {| alertScopes := scopes; beltStages := defaultBeltStages |}.

(** ** Stage functions *)

Definition getBeltStages (this : Dashboard) : list Stage := beltStages this.

(** The callback of [stages.find] in [getStageForPosition]. *)
Definition stageContains (position : value) (stage : Stage) : bool :=
  js_ge (ToNumber position) (start stage)
  && js_lt (ToNumber position) (end_ stage).

Definition getStageForPosition (this : Dashboard) (position : value)
  : option string :=
  let stages := getBeltStages this in
  match stages with
  | [] => None
  | first :: _ =>
      match find (stageContains position) stages with
      | Some stage => Some (id stage)
      | None => Some (id (last stages first))
      end
  end.

(** The object [stages.reduce] builds: every stage id set to 0. *)
Definition zeroCounts (stages : list Stage) : object :=
  fold_left (fun acc stage => obj_set (id stage) 0 acc) stages [].

(** The callback of [bags_on_belt.forEach] in [calculateStageCounts]. *)
Definition countBag (this : Dashboard) (counts : object) (bag : option Bag)
  : result object :=
  match bag with
  | None => Throw TypeError
  | Some b =>
      match getStageForPosition this (position b) with
      | Some stageId =>
          if String.eqb stageId "" then Ok counts
          else match obj_get stageId counts with
               | Some c => Ok (obj_set stageId (c + 1) counts)
               | None => Ok counts
               end
      | None => Ok counts
      end
  end.

(** [belt] is [None] for a falsy argument ([null], [undefined]).  Counts are
    natural numbers: they start at 0 and grow by 1 for each bag of an
    array. *)
Definition calculateStageCounts (this : Dashboard) (belt : option Belt)
  : result object :=
  let stages := getBeltStages this in
  let counts := zeroCounts stages in
  match belt with
  | None => Ok counts
  | Some b =>
      match bags_on_belt b with
      | BagsNotArray => Ok counts
      | BagsArray bags => forEach (countBag this) bags counts
      end
  end.

Definition getStageFlowState (loadPercent count : value) : string :=
  if strict_eq_zero count then "Idle"
  else if js_ge (ToNumber loadPercent) (Fin 60) then "Congested"
  else if js_ge (ToNumber loadPercent) (Fin 30) then "Flowing"
  else "Clearing".

(** The callback of [entries.forEach] in [getDominantStage], on the pair
    of the variables [dominantStage] and [maxCount]. *)
Definition dominantStep (acc : string * nat) (entry : string * nat)
  : string * nat :=
  let '(dominantStage, maxCount) := acc in
  let '(stageId, count) := entry in
  if maxCount <? count then (stageId, count) else (dominantStage, maxCount).

(** [counts] is [None] for a falsy argument. *)
Definition getDominantStage (counts : option object) : option string :=
  let entries := Object_entries (match counts with
                                 | Some o => o
                                 | None => []
                                 end) in
  match entries with
  | [] => None
  | first :: _ => Some (fst (fold_left dominantStep entries first))
  end.

(** [counts[k] || 0]. *)
Definition countOrZero (counts : object) (k : string) : nat :=
  match obj_get k counts with
  | Some c => c
  | None => 0
  end.

(** The statement [totals[stage.id] += counts[stage.id] || 0].  When the
    id is not an own property of [totals] it is [__proto__], and the
    assignment leaves [totals] as it is. *)
Definition addStage (counts : object) (totals : object) (stage : Stage)
  : object :=
  match obj_get (id stage) totals with
  | Some t => obj_set (id stage) (t + countOrZero counts (id stage)) totals
  | None => totals
  end.

(** The callback of [conveyorBelts.forEach] in [aggregateStageCounts]. *)
Definition addBeltCounts (this : Dashboard) (totals : object)
  (belt : option Belt) : result object :=
  let stages := getBeltStages this in
  counts <- calculateStageCounts this belt ;;
  Ok (fold_left (addStage counts) stages totals).

(** [conveyorBelts] is [None] when it is not an array. *)
Definition aggregateStageCounts (this : Dashboard)
  (conveyorBelts : option (list (option Belt))) : result object :=
  let stages := getBeltStages this in
  let totals := zeroCounts stages in
  match conveyorBelts with
  | None => Ok totals
  | Some belts => forEach (addBeltCounts this) belts totals
  end.

(** [generateStageTimelineHTML], reduced to the [isActive] mark it gives
    each stage (the markup around it is presentation). *)
Definition stageTimelineActive (this : Dashboard) (belt : option Belt)
  : result (list (string * bool)) :=
  let stages := getBeltStages this in
  match stages with
  | [] => Ok []
  | _ =>
      counts <- calculateStageCounts this belt ;;
      let dominantStage := getDominantStage (Some counts) in
      Ok (map (fun stage =>
                 (id stage,
                  match dominantStage with
                  | Some d => String.eqb d (id stage)
                  | None => false
                  end)) stages)
  end.

(** ** Alert scopes *)

(** [this.alertScopes.includes(scope)] on tags. *)
Definition includes (l : list string) (s : string) : bool :=
  existsb (String.eqb s) l.

(** The callback of [alerts.filter] in [filterAlertsByScope]. *)
Definition alertInScope (this : Dashboard) (alert : Alert) : bool :=
  match scope alert with
  | ScopeFalsy => true
  | ScopeNotArray => true
  | ScopeArray [] => true
  | ScopeArray tags =>
      existsb (fun scope =>
                 includes (alertScopes this) scope || String.eqb scope "all")
              tags
  end.

(** [alerts] is [None] when it is not an array. *)
Definition filterAlertsByScope (this : Dashboard) (alerts : option (list Alert))
  : list Alert :=
  match alerts with
  | None => []
  | Some [] => []
  | Some l => filter (alertInScope this) l
  end.

End AirportDashboard.

Import AirportDashboard.

(* ================================================================== *)
(** * Vocabulary of the specification *)
(* ================================================================== *)

(** The order of numbers as mathematics has it; [NaN] is related to
    nothing. *)
Definition num_le (a b : num) : Prop :=
  match a, b with
  | NaN, _ => False
  | _, NaN => False
  | NegInf, _ => True
  | _, PosInf => True
  | Fin x, Fin y => (x <= y)%Q
  | _, _ => False
  end.

Definition num_lt (a b : num) : Prop :=
  match a, b with
  | NaN, _ => False
  | _, NaN => False
  | PosInf, _ => False
  | _, NegInf => False
  | NegInf, _ => True
  | _, PosInf => True
  | Fin x, Fin y => (x < y)%Q
  end.

(** [start <= position < end] for a stage. *)
Definition within (position : value) (stage : Stage) : Prop :=
  num_le (start stage) (ToNumber position)
  /\ num_lt (ToNumber position) (end_ stage).

(** The dashboard with a given stage table. *)
Definition withStages (stages : list Stage) : Dashboard :=
  {| alertScopes := ["all"%string]; beltStages := stages |}.

(** The sum of the counts of a mapping. *)
Definition total (o : object) : nat := list_sum (map snd o).

(** [count] is the number zero. *)
Definition is_zero (count : value) : Prop :=
  exists q, count = Number (Fin q) /\ (q == 0)%Q.

(** The visibility rule of alerts: no usable scope, or a tag that is
    ["all"] or one of the viewer's scopes. *)
Definition visible (allowed : list string) (alert : Alert) : Prop :=
  scope alert = ScopeFalsy
  \/ scope alert = ScopeNotArray
  \/ scope alert = ScopeArray []
  \/ exists tags tag,
       scope alert = ScopeArray tags /\ In tag tags
       /\ (tag = "all"%string \/ In tag allowed).


(** [key] holds the maximum of the counts of [entries], at position [i],
    and every earlier entry holds less. *)
Definition first_maximum (entries : list (string * nat)) (i : nat)
  (key : string) : Prop :=
  exists count,
    nth_error entries i = Some (key, count)
    /\ (forall j k c, nth_error entries j = Some (k, c) -> c <= count)
    /\ (forall j k c, j < i -> nth_error entries j = Some (k, c) -> c < count).

(** A belt that carries no bag: no belt, no list of bags, or an empty
    list. *)
Definition no_bags (belt : option Belt) : Prop :=
  match belt with
  | None => True
  | Some b => bags_on_belt b = BagsNotArray \/ bags_on_belt b = BagsArray []
  end.

(** A belt the guard of [calculateStageCounts] turns away: no belt, or no
    list of bags. *)
Definition no_bag_list (belt : option Belt) : Prop :=
  match belt with
  | None => True
  | Some b => bags_on_belt b = BagsNotArray
  end.

(** The bags of a belt ([[]] when it has no list of bags). *)
Definition bags_of (belt : option Belt) : list (option Bag) :=
  match belt with
  | Some b => match bags_on_belt b with
              | BagsArray bags => bags
              | BagsNotArray => []
              end
  | None => []
  end.

(** Every element of the list of bags is a bag (none is [null]). *)
Definition bags_are_objects (belt : option Belt) : Prop :=
  Forall (fun bag => bag <> None) (bags_of belt).

(** Every bag of the belt has a number as its position. *)
Definition numeric_positions (belt : option Belt) : Prop :=
  Forall (fun bag => exists b n, bag = Some b /\ position b = Number n)
         (bags_of belt).

(** The mapping of the four stages of the constructor's table. *)
Definition counts4 (a b c d : nat) : object :=
  [("checking", a); ("sorting", b); ("security", c); ("boarding", d)]%string.

(** Element-wise sum of two mappings over the keys of the first. *)
Definition sumCounts (x y : object) : object :=
  map (fun kv => (fst kv, snd kv + countOrZero y (fst kv))) x.

(** A stage with a given id and bounds. *)
Definition plainStage (k : string) (lo hi : Q) : Stage :=
  {| id := k; label := k; description := k; icon := "";
     start := Fin lo; end_ := Fin hi |}.

(** A stage table in which no id occurs twice and no id is [__proto__]. *)
Definition distinct_ids (stages : list Stage) : Prop :=
  NoDup (map id stages)
  /\ forall k, In k (map id stages) -> k <> "__proto__"%string.

(** A non-empty stage table whose ids a bag can be counted under: none is
    the empty string (which the test [stageId && ...] turns away) and none
    is [__proto__]. *)
Definition countable_ids (stages : list Stage) : Prop :=
  stages <> []
  /\ forall k, In k (map id stages) ->
               k <> ""%string /\ k <> "__proto__"%string.


(* ================================================================== *)
(** * Further vocabulary *)
(* ================================================================== *)

(** The bag is classified into the stage [k]. *)
Definition bagInStage (this : Dashboard) (k : string) (bag : option Bag)
  : bool :=
  match bag with
  | Some b =>
      match getStageForPosition this (position b) with
      | Some k' => String.eqb k' k
      | None => false
      end
  | None => false
  end.

(** The number of bags classified into the stage [k]. *)
Definition bagsInStage (this : Dashboard) (k : string)
  (bags : list (option Bag)) : nat :=
  List.length (filter (bagInStage this k) bags).

(** What the stage functions read of a stage: its id and its bounds. *)
Definition stageBounds (stage : Stage) : string * num * num :=
  (id stage, start stage, end_ stage).

(** The number of bags on a list of belts. *)
Definition bagsOnBelts (belts : list (option Belt)) : nat :=
  list_sum (map (fun belt => List.length (bags_of belt)) belts).

(** The loop of [aggregateStageCounts] over the belts, with the sum key by
    key as its body. *)
Definition sumBelts (this : Dashboard) (belts : list (option Belt))
  (totals : object) : result object :=
  forEach (fun totals belt =>
             counts <- calculateStageCounts this belt ;;
             Ok (sumCounts totals counts)) belts totals.

(* ================================================================== *)
(** * The staff portal *)
(* ================================================================== *)

(** Class [StaffPortal] carries its own stage table and its own copies of
    the stage functions; bags and belts are those of the dashboard. *)
Module StaffPortal.

(** The fields of the portal object the functions below read. *)
Record Portal : Type := {
  userRole : string;
  beltStages : list Stage
}.

(** The stage table the constructor of the portal installs. *)
Definition defaultBeltStages : list Stage :=
  [ {| id := "checking"; label := "Check-In & Tagging";
       description := "Bags accepted & tagged";
       icon := "fas fa-clipboard-check";
       start := Fin 0; end_ := Fin 25 |};
    {| id := "sorting"; label := "Automated Sorting";
       description := "Dynamic diverters active";
       icon := "fas fa-diagram-project";
       start := Fin 25; end_ := Fin 50 |};
    {| id := "security"; label := "Security Screening";
       description := "High-resolution scans";
       icon := "fas fa-shield-halved";
       start := Fin 50; end_ := Fin 75 |};
    {| id := "boarding"; label := "Gate Boarding";
       description := "Loaded onto trolleys";
       icon := "fas fa-plane-departure";
       start := Fin 75; end_ := Fin 100 |} ].

(** [constructor]: [configRole] is [window.staffPortalConfig.role] when the
    configuration is set and the role is a string that is not empty. *)
Definition constructor (configRole : option string) : Portal :=
  {| userRole := match configRole with
                 | Some role => if String.eqb role "" then "staff" else role
                 | None => "staff"
                 end;
     beltStages := defaultBeltStages |}.

Definition getBeltStages (this : Portal) : list Stage := beltStages this.

Definition getStageForPosition (this : Portal) (position : value)
  : option string :=
  let stages := getBeltStages this in
  match stages with
  | [] => None
  | first :: _ =>
      match find (stageContains position) stages with
      | Some stage => Some (id stage)
      | None => Some (id (last stages first))
      end
  end.

(** The callback of [bags_on_belt.forEach] in [calculateStageCounts]. *)
Definition countBag (this : Portal) (counts : object) (bag : option Bag)
  : result object :=
  match bag with
  | None => Throw TypeError
  | Some b =>
      match getStageForPosition this (position b) with
      | Some stageId =>
          if String.eqb stageId "" then Ok counts
          else match obj_get stageId counts with
               | Some c => Ok (obj_set stageId (c + 1) counts)
               | None => Ok counts
               end
      | None => Ok counts
      end
  end.

Definition calculateStageCounts (this : Portal) (belt : option Belt)
  : result object :=
  let stages := getBeltStages this in
  let counts := zeroCounts stages in
  match belt with
  | None => Ok counts
  | Some b =>
      match bags_on_belt b with
      | BagsNotArray => Ok counts
      | BagsArray bags => forEach (countBag this) bags counts
      end
  end.

Definition getStageFlowState (loadPercent count : value) : string :=
  if strict_eq_zero count then "Idle"
  else if js_ge (ToNumber loadPercent) (Fin 60) then "Congested"
  else if js_ge (ToNumber loadPercent) (Fin 30) then "Flowing"
  else "Clearing".

(** The callback of [entries.forEach] in [getDominantStage]. *)
Definition dominantStep (acc : string * nat) (entry : string * nat)
  : string * nat :=
  let '(dominantStage, maxCount) := acc in
  let '(stageId, value) := entry in
  if maxCount <? value then (stageId, value) else (dominantStage, maxCount).

Definition getDominantStage (counts : option object) : option string :=
  let entries := Object_entries (match counts with
                                 | Some o => o
                                 | None => []
                                 end) in
  match entries with
  | [] => None
  | first :: _ => Some (fst (fold_left dominantStep entries first))
  end.

End StaffPortal.

(* ================================================================== *)
(** * Arithmetic on numbers *)
(* ================================================================== *)

(** Division and multiplication of JavaScript numbers round, so they are
    taken from the IEEE 754 binary64 arithmetic of [SpecFloat]: 53 bits of
    precision, exponents below 1024, rounding to nearest, ties to even. *)
Module JSArith.

Definition prec : Z := 53.
Definition emax : Z := 1024.

(** The number a natural number denotes (exact below 2^53). *)
Definition ofNat (n : nat) : spec_float :=
  binary_normalize prec emax (Z.of_nat n) 0 false.

Definition div (x y : spec_float) : spec_float := SFdiv prec emax x y.
Definition mul (x y : spec_float) : spec_float := SFmul prec emax x y.

(** The value of a number, for comparisons. *)
Definition toNum (x : spec_float) : num :=
  match x with
  | S754_nan => NaN
  | S754_infinity true => NegInf
  | S754_infinity false => PosInf
  | S754_zero _ => Fin 0
  | S754_finite s m e =>
      Fin (inject_Z (cond_Zopp s (Zpos m)) * Qpower 2 e)
  end.

(** [Math.round(x)]: the integer nearest to [x], the larger one on a tie;
    [m * 2^e + 1/2] is rounded down exactly. *)
Definition Math_round (x : spec_float) : num :=
  match x with
  | S754_nan => NaN
  | S754_infinity true => NegInf
  | S754_infinity false => PosInf
  | S754_zero _ => Fin 0
  | S754_finite s m e =>
      let mant := cond_Zopp s (Zpos m) in
      match e with
      | Zneg d =>
          Fin (inject_Z (Z.shiftr (mant + Z.shiftl 1 (Zpos d - 1)) (Zpos d)))
      | _ => Fin (inject_Z (Z.shiftl mant e))
      end
  end.

(** [Math.max(a, b)] of two numbers. *)
Definition Math_max (a b : num) : num :=
  match lessThan a b with
  | None => NaN
  | Some true => b
  | Some false => a
  end.

(** [count / total * 100]. *)
Definition percentage (count total : spec_float) : spec_float :=
  mul (div count total) (ofNat 100).

End JSArith.

(* ================================================================== *)
(** * Views of the stage counts *)
(* ================================================================== *)

(** What [generateStageTimelineHTML] computes for a stage; the markup
    around these values is presentation. *)
Record TimelineStage : Type := {
  timeline_id : string;
  loadPercent : num;
  flowState : string;
  isActive : bool
}.

(** [generateStageTimelineHTML].  A stage id that is not an own property of
    [counts] is [__proto__]: [counts[stage.id]] is then the prototype
    object, which no arithmetic turns into a number. *)
Definition generateStageTimeline (this : Dashboard) (belt : option Belt)
  : result (list TimelineStage) :=
  let stages := getBeltStages this in
  match stages with
  | [] => Ok []
  | _ =>
      counts <- calculateStageCounts this belt ;;
      let bagCount :=
        match belt with
        | Some b => match bags_on_belt b with
                    | BagsArray bags => List.length bags
                    | BagsNotArray => 0
                    end
        | None => 0
        end in
      let totalBags := Nat.max 1 bagCount in
      let dominantStage := getDominantStage (Some counts) in
      Ok (map (fun stage =>
                 let loadPercent :=
                   match obj_get (id stage) counts with
                   | Some c =>
                       JSArith.Math_round
                         (JSArith.percentage (JSArith.ofNat c)
                            (JSArith.ofNat totalBags))
                   | None => NaN
                   end in
                 let count :=
                   match obj_get (id stage) counts with
                   | Some c => Number (Fin (inject_Z (Z.of_nat c)))
                   | None => Coercible NaN
                   end in
                 {| timeline_id := id stage;
                    loadPercent := loadPercent;
                    flowState := getStageFlowState (Number loadPercent) count;
                    isActive := match dominantStage with
                                | Some d => String.eqb d (id stage)
                                | None => false
                                end |}) stages)
  end.

(** What [generateMiniConveyorVisualization] computes for a stage. *)
Record MiniSegment : Type := {
  segment_id : string;
  width : num;
  segmentActive : bool
}.

(** [generateMiniConveyorVisualization]: [None] is the message that no live
    conveyor data is available.  The sum of the counts is a sum of natural
    numbers (exact below 2^53). *)
Definition generateMiniConveyorVisualization (this : Dashboard)
  (conveyorBelts : option (list (option Belt)))
  : result (option (list MiniSegment)) :=
  let stages := getBeltStages this in
  match stages, conveyorBelts with
  | [], _ => Ok None
  | _, None => Ok None
  | _, Some [] => Ok None
  | _, Some _ =>
      stageCounts <- aggregateStageCounts this conveyorBelts ;;
      let sum := list_sum (Object_values stageCounts) in
      let totalBags := if sum =? 0 then 1 else sum in
      let dominantStage := getDominantStage (Some stageCounts) in
      Ok (Some
            (map (fun stage =>
                    let width :=
                      match obj_get (id stage) stageCounts with
                      | Some c =>
                          JSArith.Math_max
                            (Fin (if 0 <? c then 8 else 0))
                            (JSArith.toNum
                               (JSArith.percentage (JSArith.ofNat c)
                                  (JSArith.ofNat totalBags)))
                      | None => NaN
                      end in
                    {| segment_id := id stage;
                       width := width;
                       segmentActive := match dominantStage with
                                        | Some d => String.eqb d (id stage)
                                        | None => false
                                        end |}) stages))
  end.

(* ================================================================== *)
(** * The page *)
(* ================================================================== *)

(** The part of the document the scripts read and write: the elements that
    carry an id, with their inline [style.display], their class list and
    their text. *)
Module Page.

Record Element : Type := {
  elem_id : string;
  style_display : string;
  classList : list string;
  textContent : string
}.

(** The elements with an id, in document order. *)
Definition Document : Type := list Element.

Definition hasId (i : string) (e : Element) : bool :=
  String.eqb (elem_id e) i.

(** [document.getElementById(i)]: the first element with this id, [None]
    for [null]. *)
Definition getElementById (i : string) (doc : Document) : option Element :=
  find (hasId i) doc.

(** The document after a mutation [f] of the element that
    [getElementById(i)] returns; nothing happens when there is none, which
    is what the guards [if (chevron)] of the scripts do. *)
Fixpoint update (i : string) (f : Element -> Element) (doc : Document)
  : Document :=
  match doc with
  | [] => []
  | e :: rest => if hasId i e then f e :: rest else e :: update i f rest
  end.

(** [e.style.display = d] *)
Definition set_display (d : string) (e : Element) : Element :=
  {| elem_id := elem_id e;
     style_display := d;
     classList := classList e;
     textContent := textContent e |}.

(** [e.textContent = t] *)
Definition set_textContent (t : string) (e : Element) : Element :=
  {| elem_id := elem_id e;
     style_display := style_display e;
     classList := classList e;
     textContent := t |}.

(** A method of [e.classList]. *)
Definition on_classList (f : list string -> list string) (e : Element)
  : Element :=
  {| elem_id := elem_id e;
     style_display := style_display e;
     classList := f (classList e);
     textContent := textContent e |}.

(** A mutation that keeps the id of the element, as all of the above do. *)
Definition keeps_id (f : Element -> Element) : Prop :=
  forall e, elem_id (f e) = elem_id e.

(** [classList.contains(token)] *)
Definition contains (token : string) (classes : list string) : bool :=
  existsb (String.eqb token) classes.

(** [classList.add(token)]: a token that is absent goes to the end. *)
Definition add (token : string) (classes : list string) : list string :=
  if contains token classes then classes else classes ++ [token].

(** [classList.remove(token)] *)
Definition remove (token : string) (classes : list string) : list string :=
  filter (fun c => negb (String.eqb token c)) classes.

(** The test of [toggleWidgetContent] for a widget that is to be expanded. *)
Definition widgetCollapsed (content : Element) : bool :=
  String.eqb (style_display content) "none"
  || contains "collapsed" (classList content).

(** [toggleWidgetContent(widgetName)], the same function in both scripts. *)
Definition toggleWidgetContent (widgetName : string) (doc : Document)
  : Document :=
  let contentId := (widgetName ++ "-content")%string in
  let chevronId := (widgetName ++ "-chevron")%string in
  match getElementById contentId doc with
  | None => doc
  | Some content =>
      if String.eqb (style_display content) "none"
         || contains "collapsed" (classList content)
      then
        let doc := update contentId (set_display "block") doc in
        let doc := update contentId (on_classList (remove "collapsed")) doc in
        let doc := update contentId (on_classList (add "expanded")) doc in
        update chevronId (on_classList (add "rotated")) doc
      else
        let doc := update contentId (on_classList (remove "expanded")) doc in
        let doc := update contentId (on_classList (add "collapsed")) doc in
        update chevronId (on_classList (remove "rotated")) doc
  end.

(** [autoExpandAlerts] of the dashboard. *)
Definition autoExpandAlerts (doc : Document) : Document :=
  match getElementById "ai-alerts-content" doc with
  | None => doc
  | Some content =>
      if String.eqb (style_display content) "none"
      then
        let doc := update "ai-alerts-content" (set_display "block") doc in
        let doc :=
          update "ai-alerts-content" (on_classList (remove "collapsed")) doc in
        let doc :=
          update "ai-alerts-content" (on_classList (add "expanded")) doc in
        update "ai-alerts-chevron" (on_classList (add "rotated")) doc
      else doc
  end.

(** [toggleSectionContent(sectionName)] of the staff portal. *)
Definition toggleSectionContent (sectionName : string) (doc : Document)
  : Document :=
  let contentId := (sectionName ++ "-content")%string in
  let chevronId := (sectionName ++ "-chevron")%string in
  match getElementById contentId doc with
  | None => doc
  | Some content =>
      if contains "collapsed" (classList content)
      then
        let doc := update contentId (on_classList (remove "collapsed")) doc in
        let doc := update contentId (on_classList (add "expanded")) doc in
        update chevronId (on_classList (add "rotated")) doc
      else
        let doc := update contentId (on_classList (remove "expanded")) doc in
        let doc := update contentId (on_classList (add "collapsed")) doc in
        update chevronId (on_classList (remove "rotated")) doc
  end.

(** [autoExpandStaffAlerts] of the staff portal. *)
Definition autoExpandStaffAlerts (doc : Document) : Document :=
  match getElementById "ai-alerts-section-content" doc with
  | None => doc
  | Some content =>
      if contains "collapsed" (classList content)
      then
        let doc :=
          update "ai-alerts-section-content"
            (on_classList (remove "collapsed")) doc in
        let doc :=
          update "ai-alerts-section-content"
            (on_classList (add "expanded")) doc in
        update "ai-alerts-section-chevron" (on_classList (add "rotated")) doc
      else doc
  end.

(** [key.replace(/_/g, ' ')] *)
Fixpoint replace_underscores (key : string) : string :=
  match key with
  | EmptyString => EmptyString
  | String c rest =>
      String (if Ascii.eqb c "_" then " "%char else c)
             (replace_underscores rest)
  end.

(** The argument of [notifyDashboardErrors] is [None] for a value that is
    not truthy and otherwise the list [Object.keys(errors)]. *)
Definition errorKeys (errors : option (list string)) : list string :=
  match errors with
  | Some keys => keys
  | None => []
  end.

(** [notifyDashboardErrors(errors)] *)
Definition notifyDashboardErrors (errors : option (list string))
  (doc : Document) : Document :=
  match getElementById "dashboard-error-banner" doc,
        getElementById "dashboard-error-message" doc with
  | Some _, Some _ =>
      match errorKeys errors with
      | [] =>
          let doc :=
            update "dashboard-error-banner" (on_classList (add "d-none")) doc in
          update "dashboard-error-message" (set_textContent "") doc
      | _ :: _ =>
          let readable := map replace_underscores (errorKeys errors) in
          let doc :=
            update "dashboard-error-message"
              (set_textContent
                 ("Some widgets are still loading: "
                  ++ String.concat ", " readable)%string) doc in
          update "dashboard-error-banner" (on_classList (remove "d-none")) doc
      end
  | _, _ => doc
  end.

(** Whether a character occurs in a text. *)
Fixpoint occurs (c : ascii) (s : string) : bool :=
  match s with
  | EmptyString => false
  | String d rest => Ascii.eqb c d || occurs c rest
  end.

End Page.

(* ================================================================== *)
(** * The actions of the staff portal *)
(* ================================================================== *)

Module StaffActions.

(** What a method does that one can observe. *)
Inductive effect : Type :=
| console_log (text : string)
| alert (text : string)
| throw_TypeError.

(** A method of the class, from its arguments to its effects. *)
Definition method : Type := list string -> list effect.

(** The text of an argument in a template literal; a missing argument is
    [undefined]. *)
Definition argument (n : nat) (args : list string) : string :=
  nth n args "undefined"%string.

Definition monitorBelt : method := fun args =>
  [alert ("Monitoring belt " ++ argument 0 args
          ++ " - Enhanced monitoring activated")%string].

(** The first [scheduleMaintenance(beltId)] of the class body. *)
Definition scheduleMaintenance : method := fun args =>
  [alert ("Maintenance scheduled for belt " ++ argument 0 args
          ++ " - Maintenance team notified")%string].

Definition showBeltDetails : method := fun args =>
  [alert ("Showing detailed information for belt " ++ argument 0 args)%string].

Definition assignStaff : method := fun _ =>
  [alert "Staff assignment interface opened"].

(** The second [scheduleMaintenance()] of the class body. *)
Definition scheduleMaintenance' : method := fun _ =>
  [alert "Maintenance scheduling interface opened"].

(** The methods [takeAction] can call, in the order of the class body. *)
Definition actionMethods : list (string * method) :=
  [ ("monitorBelt", monitorBelt);
    ("scheduleMaintenance", scheduleMaintenance);
    ("showBeltDetails", showBeltDetails);
    ("assignStaff", assignStaff);
    ("scheduleMaintenance", scheduleMaintenance') ]%string.

(** A class body defines its methods on the prototype one after the other:
    a definition of a name that is there already replaces the earlier
    one. *)
Fixpoint defineMethod (prototype : list (string * method))
  (definition : string * method) : list (string * method) :=
  match prototype with
  | [] => [definition]
  | m :: rest =>
      if String.eqb (fst m) (fst definition) then definition :: rest
      else m :: defineMethod rest definition
  end.

Definition prototype : list (string * method) :=
  fold_left defineMethod actionMethods [].

(** [this.name(args)]; a name the class does not define is not a
    function. *)
Definition call (name : string) (args : list string) : list effect :=
  match find (fun m => String.eqb (fst m) name) prototype with
  | Some m => snd m args
  | None => [throw_TypeError]
  end.

(** [takeAction(beltId, action)] *)
Definition takeAction (beltId action : string) : list effect :=
  console_log ("Taking action " ++ action ++ " on belt " ++ beltId)%string
  :: (if String.eqb action "monitor" then call "monitorBelt" [beltId]
      else if String.eqb action "maintenance"
           then call "scheduleMaintenance" [beltId]
      else if String.eqb action "details" then call "showBeltDetails" [beltId]
      else []).

End StaffActions.
(* ================================================================== *)
(** * Comparison of numbers *)
(* ================================================================== *)

Lemma Qlt_bool_iff (a b : Q) : Qlt_bool a b = true <-> (a < b)%Q.
Proof.
  unfold Qlt_bool. rewrite negb_true_iff. split.
  - intros H. apply Qnot_le_lt. intros Hle.
    apply Qle_bool_iff in Hle. congruence.
  - intros H. destruct (Qle_bool b a) eqn:E; [|reflexivity].
    apply Qle_bool_iff in E. exfalso. exact (Qlt_not_le _ _ H E).
Qed.

Lemma js_lt_iff (a b : num) : js_lt a b = true <-> num_lt a b.
Proof.
  unfold js_lt.
  destruct a as [| |x|], b as [| |y|]; simpl;
    try (split; [discriminate | contradiction]);
    try (split; [intros _; exact I | reflexivity]).
  destruct (Qlt_bool x y) eqn:E.
  - split; [intros _; now apply Qlt_bool_iff | reflexivity].
  - split; [discriminate|]. intros H. apply Qlt_bool_iff in H. congruence.
Qed.

Lemma js_ge_iff (a b : num) : js_ge a b = true <-> num_le b a.
Proof.
  unfold js_ge.
  destruct a as [| |x|], b as [| |y|]; simpl;
    try (split; [discriminate | contradiction]);
    try (split; [intros _; exact I | reflexivity]).
  destruct (Qlt_bool x y) eqn:E.
  - split; [discriminate|]. intros H. apply Qlt_bool_iff in E.
    exfalso. exact (Qlt_not_le _ _ E H).
  - split; [|reflexivity]. intros _. apply Qnot_lt_le. intros H.
    apply Qlt_bool_iff in H. congruence.
Qed.

Lemma stageContains_iff (p : value) (s : Stage) :
  stageContains p s = true <-> within p s.
Proof.
  unfold stageContains, within.
  rewrite andb_true_iff, js_ge_iff, js_lt_iff. reflexivity.
Qed.

Lemma stageContains_false_iff (p : value) (s : Stage) :
  stageContains p s = false <-> ~ within p s.
Proof.
  rewrite <- stageContains_iff. destruct (stageContains p s); split;
    congruence.
Qed.

Lemma Qlt_bool_false_iff (a b : Q) : Qlt_bool a b = false <-> (b <= a)%Q.
Proof.
  split.
  - intros H. apply Qnot_lt_le. intros Hlt. apply Qlt_bool_iff in Hlt.
    congruence.
  - intros H. destruct (Qlt_bool a b) eqn:E; [|reflexivity].
    apply Qlt_bool_iff in E. exfalso. exact (Qlt_not_le _ _ E H).
Qed.

(** Case analysis on every comparison of rationals left in the goal. *)
Ltac q_cases :=
  repeat match goal with
         | |- context [Qlt_bool ?a ?b] =>
             let E := fresh "E" in
             destruct (Qlt_bool a b) eqn:E;
             [apply Qlt_bool_iff in E | apply Qlt_bool_false_iff in E];
             cbn [andb negb]
         end.

(* ================================================================== *)
(** * getStageForPosition *)
(* ================================================================== *)

Lemma find_first {A : Type} (f : A -> bool) (before : list A) (x : A)
  (after : list A) :
  f x = true -> (forall y, In y before -> f y = false) ->
  find f (before ++ x :: after) = Some x.
Proof.
  intros Hx. induction before as [|y before IH]; intros Hb; simpl.
  - now rewrite Hx.
  - rewrite (Hb y (or_introl eq_refl)). apply IH.
    intros z Hz. apply Hb. now right.
Qed.

Lemma find_none_iff {A : Type} (f : A -> bool) (l : list A) :
  find f l = None <-> forall y, In y l -> f y = false.
Proof.
  split; [apply find_none|].
  induction l as [|x l IH]; intros H; simpl; [reflexivity|].
  rewrite (H x (or_introl eq_refl)). apply IH. intros y Hy. apply H. now right.
Qed.

Lemma last_In {A : Type} (l : list A) (x d : A) :
  In (last (x :: l) d) (x :: l).
Proof.
  revert x. induction l as [|y l IH]; intros x; [now left|].
  right. apply (IH y).
Qed.

Lemma last_snoc {A : Type} (l : list A) (x d : A) : last (l ++ [x]) d = x.
Proof.
  induction l as [|y l IH]; [reflexivity|].
  simpl. destruct (l ++ [x]) eqn:E; [now destruct l|exact IH].
Qed.

Lemma getStageForPosition_in (this : Dashboard) (p : value) (k : string) :
  getStageForPosition this p = Some k -> In k (map id (beltStages this)).
Proof.
  unfold getStageForPosition, getBeltStages.
  destruct (beltStages this) as [|s0 l] eqn:E; [discriminate|].
  destruct (find (stageContains p) (s0 :: l)) as [s|] eqn:F; intros [= <-].
  - apply in_map. apply find_some in F. tauto.
  - apply in_map. apply last_In.
Qed.

Lemma getStageForPosition_None (this : Dashboard) (p : value) :
  getStageForPosition this p = None <-> beltStages this = [].
Proof.
  unfold getStageForPosition, getBeltStages.
  destruct (beltStages this) as [|s0 l]; [tauto|].
  destruct (find _ _); split; discriminate.
Qed.

(** The stage of a finite position in the table of the constructor. *)
Lemma default_stage_fin (cfg : option Config) (p : value) (q : Q) :
  ToNumber p = Fin q ->
  getStageForPosition (constructor cfg) p =
  Some (if Qlt_bool q 0 then "boarding"
        else if Qlt_bool q 25 then "checking"
        else if Qlt_bool q 50 then "sorting"
        else if Qlt_bool q 75 then "security"
        else "boarding")%string.
Proof.
  intros Hp. unfold getStageForPosition, getBeltStages, stageContains.
  cbn [beltStages constructor defaultBeltStages checkingStage sortingStage
       securityStage boardingStage find start end_ id last].
  rewrite Hp. unfold js_ge, js_lt, lessThan.
  q_cases; try reflexivity; exfalso; lra.
Qed.

Lemma default_stage_not_fin (cfg : option Config) (p : value) :
  (forall q, ToNumber p <> Fin q) ->
  getStageForPosition (constructor cfg) p = Some "boarding"%string.
Proof.
  intros Hp. unfold getStageForPosition, getBeltStages, stageContains.
  cbn [beltStages constructor defaultBeltStages checkingStage sortingStage
       securityStage boardingStage find start end_ id last].
  destruct (ToNumber p) as [| |q|]; try reflexivity.
  now elim (Hp q).
Qed.

(** C1, as the code behaves.  [getStageForPosition] returns [null] exactly
    when the stage table is empty; otherwise it returns the id of the first
    stage with [start <= position < end], and the id of the last stage of
    the table when no stage has.  A position that is not a number is
    compared by the number it converts to, so it gets the stage of that
    number: [null] converts to 0 and gets ["checking"] in the table of the
    constructor.  In that table a position that converts to [NaN], is
    negative, or is at least 100 gets ["boarding"], every position in
    [0,100] gets the id of a stage of the table, and position 100 gets
    ["boarding"]. *)
Theorem getStageForPosition_contract :
  (forall this p,
      getStageForPosition this p = None <-> beltStages this = []) /\
  (forall this p before stage after,
      beltStages this = before ++ stage :: after ->
      within p stage ->
      (forall s, In s before -> ~ within p s) ->
      getStageForPosition this p = Some (id stage)) /\
  (forall this p init final,
      beltStages this = init ++ [final] ->
      (forall s, In s (beltStages this) -> ~ within p s) ->
      getStageForPosition this p = Some (id final)) /\
  (forall cfg p,
      ToNumber p = NaN \/ num_lt (ToNumber p) (Fin 0)
      \/ num_le (Fin 100) (ToNumber p) ->
      getStageForPosition (constructor cfg) p = Some "boarding"%string) /\
  (forall cfg q,
      (0 <= q)%Q -> (q <= 100)%Q ->
      exists stage,
        In stage defaultBeltStages /\
        getStageForPosition (constructor cfg) (Number (Fin q))
        = Some (id stage)) /\
  (forall cfg,
      getStageForPosition (constructor cfg) (Number (Fin 100))
      = Some "boarding"%string) /\
  (forall this p,
      getStageForPosition this p
      = getStageForPosition this (Number (ToNumber p))) /\
  (forall cfg,
      getStageForPosition (constructor cfg) Null = Some "checking"%string).
Proof.
  refine (conj _ (conj _ (conj _ (conj _ (conj _ (conj _ (conj _ _))))))).
  - exact getStageForPosition_None.
  - intros this p before stage after E Hin Hbefore.
    unfold getStageForPosition, getBeltStages.
    assert (F : find (stageContains p) (beltStages this) = Some stage).
    { rewrite E. apply find_first.
      - now apply stageContains_iff.
      - intros y Hy. apply stageContains_false_iff. now apply Hbefore. }
    destruct (beltStages this) as [|s0 l]; [now destruct before|].
    now rewrite F.
  - intros this p init final E Hnone.
    unfold getStageForPosition, getBeltStages.
    assert (F : find (stageContains p) (beltStages this) = None).
    { apply find_none_iff. intros y Hy. apply stageContains_false_iff.
      now apply Hnone. }
    destruct (beltStages this) as [|s0 l] eqn:E0; [now destruct init|].
    rewrite F, E. now rewrite last_snoc.
  - intros cfg p H. destruct (ToNumber p) as [| |q|] eqn:Ep.
    + apply default_stage_not_fin. intros q. congruence.
    + apply default_stage_not_fin. intros q. congruence.
    + rewrite (default_stage_fin cfg p q Ep).
      destruct H as [H|[H|H]]; [discriminate| |]; simpl in H;
        q_cases; try reflexivity; exfalso; lra.
    + apply default_stage_not_fin. intros q. congruence.
  - intros cfg q H0 H100.
    rewrite (default_stage_fin cfg (Number (Fin q)) q eq_refl).
    q_cases.
    + exfalso; lra.
    + eexists; split; [left; reflexivity | reflexivity].
    + eexists; split; [right; left; reflexivity | reflexivity].
    + eexists; split; [right; right; left; reflexivity | reflexivity].
    + eexists; split; [right; right; right; left; reflexivity | reflexivity].
  - intros cfg. now rewrite (default_stage_fin cfg (Number (Fin 100)) 100%Q eq_refl).
  - intros this p. reflexivity.
  - intros cfg. now rewrite (default_stage_fin cfg Null 0%Q eq_refl).
Qed.

(** The contract at work on the table of the constructor: position 30 lies
    in the second stage, and no stage holds position 120. *)
Lemma getStageForPosition_contract_witness :
  getStageForPosition (constructor None) (Number (Fin 30))
  = Some "sorting"%string
  /\ getStageForPosition (constructor None) (Number (Fin 120))
     = Some "boarding"%string
  /\ getStageForPosition (constructor None) Undefined
     = Some "boarding"%string
  /\ (exists stage,
        In stage defaultBeltStages /\
        getStageForPosition (constructor None) (Number (Fin 60))
        = Some (id stage)).
Proof.
  destruct getStageForPosition_contract as (_ & Hfirst & Hlast & Hout & Hcov & _).
  split; [|split; [|split]].
  - apply (Hfirst (constructor None) (Number (Fin 30))
             [checkingStage] sortingStage [securityStage; boardingStage]).
    + reflexivity.
    + split; simpl; unfold Qle, Qlt; simpl; lia.
    + intros s [<-|[]] [_ H]. simpl in H. unfold Qlt in H. simpl in H. lia.
  - apply (Hlast (constructor None) (Number (Fin 120))
             [checkingStage; sortingStage; securityStage] boardingStage).
    + reflexivity.
    + intros s [<-|[<-|[<-|[<-|[]]]]] [_ H]; simpl in H; unfold Qlt in H;
        simpl in H; lia.
  - apply (Hout None Undefined). left. reflexivity.
  - apply (Hcov None 60%Q); unfold Qle; simpl; lia.
Defined.

(** The position [null] is not a number, and it does not get the last
    stage: it is compared as 0 and gets the first stage. *)
Lemma null_position_not_last_stage :
  getStageForPosition (constructor None) Null = Some "checking"%string
  /\ id (last (beltStages (constructor None)) checkingStage)
     = "boarding"%string
  /\ getStageForPosition (constructor None) Null
     <> Some (id (last (beltStages (constructor None)) checkingStage)).
Proof. split; [reflexivity | split; [reflexivity | discriminate]]. Qed.

(** Position -5 does not get the first stage. *)
Lemma negative_position_not_checking :
  getStageForPosition (constructor None) (Number (Fin (-5)))
  = Some "boarding"%string
  /\ getStageForPosition (constructor None) (Number (Fin (-5)))
     <> Some "checking"%string.
Proof. split; [reflexivity | discriminate]. Qed.

(** C3, as the code behaves.  In the table of the constructor position -5
    lies within no stage, and [getStageForPosition] returns ["boarding"],
    the id of the last stage of the table. *)
Theorem negative_position_boarding (cfg : option Config) :
  (forall stage,
      In stage (beltStages (constructor cfg)) ->
      ~ within (Number (Fin (-5))) stage)
  /\ getStageForPosition (constructor cfg) (Number (Fin (-5)))
      = Some "boarding"%string
  /\ id (last (beltStages (constructor cfg)) checkingStage)
      = "boarding"%string.
Proof.
  split; [|split; reflexivity].
  intros stage [<-|[<-|[<-|[<-|[]]]]] [Hle _]; simpl in Hle;
    unfold Qle in Hle; simpl in Hle; lia.
Qed.

(* ================================================================== *)
(** * Objects *)
(* ================================================================== *)



Lemma insert_index_perm (e : N * (string * nat)) (l : list (N * (string * nat))) :
  Permutation (insert_index e l) (e :: l).
Proof.
  induction l as [|h t IH]; simpl; [reflexivity|].
  destruct (fst e <=? fst h)%N; [reflexivity|].
  rewrite IH. apply perm_swap.
Qed.

Lemma Object_entries_perm (o : object) : Permutation (Object_entries o) o.
Proof.
  unfold Object_entries, index_entries, is_array_index.
  induction o as [|kv o IH]; simpl; [reflexivity|].
  destruct (array_index (fst kv)) as [n|]; simpl.
  - rewrite insert_index_perm. simpl. now constructor.
  - rewrite <- Permutation_middle. now constructor.
Qed.

Lemma Object_entries_nil (o : object) : Object_entries o = [] <-> o = [].
Proof.
  split.
  - intros H. pose proof (Object_entries_perm o) as P. rewrite H in P.
    now apply Permutation_nil.
  - intros ->. reflexivity.
Qed.

(* ================================================================== *)
(** * getDominantStage *)
(* ================================================================== *)

(** The loop of [getDominantStage] from any state of its two variables:
    either no entry exceeds the running maximum and the state is kept, or
    the result is the first entry holding the largest count. *)
Lemma dominant_fold (l : list (string * nat)) (k0 : string) (c0 : nat) :
  let r := fold_left dominantStep l (k0, c0) in
  (forall j k c, nth_error l j = Some (k, c) -> c <= snd r)
  /\ c0 <= snd r
  /\ ((r = (k0, c0))
      \/ (exists i, nth_error l i = Some r /\ c0 < snd r
                    /\ forall j k c, j < i -> nth_error l j = Some (k, c) ->
                                     c < snd r)).
Proof.
  revert k0 c0. induction l as [|[k1 c1] l IH]; intros k0 c0; simpl.
  - split; [intros [|j] k c H; discriminate|]. split; [lia | now left].
  - destruct (c0 <? c1) eqn:E.
    + apply Nat.ltb_lt in E. destruct (IH k1 c1) as (Hall & Hle & Hpos).
      split; [|split; [lia|]].
      * intros [|j] k c H; [injection H as <- <-; exact Hle | eauto].
      * right. destruct Hpos as [Hr|(i & Hi & Hlt & Hfirst)].
        -- exists 0. rewrite Hr. simpl. split; [reflexivity|].
           split; [exact E | intros j k c Hj; lia].
        -- exists (S i). split; [exact Hi|]. split; [lia|].
           intros [|j] k c Hj H; [injection H as <- <-; exact Hlt|].
           apply (Hfirst j k c); [lia | exact H].
    + apply Nat.ltb_ge in E. destruct (IH k0 c0) as (Hall & Hle & Hpos).
      split; [|split; [exact Hle|]].
      * intros [|j] k c H; [injection H as <- <-; lia | eauto].
      * destruct Hpos as [Hr|(i & Hi & Hlt & Hfirst)]; [now left|].
        right. exists (S i). split; [exact Hi|]. split; [exact Hlt|].
        intros [|j] k c Hj H; [injection H as <- <-; lia|].
        apply (Hfirst j k c); [lia | exact H].
Qed.

Lemma getDominantStage_first_maximum (o : object) :
  Object_entries o <> [] ->
  exists i key,
    getDominantStage (Some o) = Some key
    /\ first_maximum (Object_entries o) i key.
Proof.
  unfold getDominantStage.
  destruct (Object_entries o) as [|[k0 c0] l] eqn:E; [congruence|].
  intros _. pose proof (dominant_fold ((k0, c0) :: l) k0 c0) as H.
  cbv zeta in H. destruct H as (Hall & Hle & Hpos).
  destruct (fold_left dominantStep ((k0, c0) :: l) (k0, c0)) as [k c] eqn:F.
  simpl fst. simpl snd in *.
  destruct Hpos as [[= -> ->]|(i & Hi & Hlt & Hfirst)].
  - exists 0, k0. split; [reflexivity|]. exists c0.
    split; [reflexivity|]. split; [exact Hall | intros j k c Hj; lia].
  - exists i, k. split; [reflexivity|]. exists c.
    split; [exact Hi|]. split; [exact Hall | exact Hfirst].
Qed.

(** C5. For a mapping with at least one entry [getDominantStage] returns a
    key holding the maximum count, the first such key in the order
    [Object.entries] lists the mapping (every entry before it holds strictly
    less); on the counts 3, 3, 1, 0 of the four stages it returns
    ["checking"]; and it returns [null] exactly when the mapping has no
    entry. *)
Theorem getDominantStage_first_max :
  (forall o,
      o <> [] ->
      exists i key,
        getDominantStage (Some o) = Some key
        /\ first_maximum (Object_entries o) i key) /\
  getDominantStage
    (Some [("checking", 3); ("sorting", 3); ("security", 1); ("boarding", 0)]%string)
  = Some "checking"%string /\
  (forall o, getDominantStage (Some o) = None <-> o = []) /\
  getDominantStage None = None.
Proof.
  refine (conj _ (conj eq_refl (conj _ eq_refl))).
  { intros o H. apply getDominantStage_first_maximum.
    now rewrite Object_entries_nil. }
  intros o. rewrite <- Object_entries_nil. unfold getDominantStage.
  destruct (Object_entries o); split; try reflexivity; discriminate.
Qed.

(** The tie of the specification: first of two maxima. *)
Lemma getDominantStage_first_max_witness :
  exists i key,
    getDominantStage
      (Some [("checking", 3); ("sorting", 3); ("security", 1);
             ("boarding", 0)]%string) = Some key
    /\ first_maximum
         (Object_entries
            [("checking", 3); ("sorting", 3); ("security", 1);
             ("boarding", 0)]%string) i key.
Proof.
  apply (proj1 getDominantStage_first_max). discriminate.
Defined.

(* ================================================================== *)
(** * The zero-initialised mapping *)
(* ================================================================== *)

Lemma obj_set_Forall (P : string * nat -> Prop) (k : string) (v : nat)
  (o : object) :
  P (k, v) -> Forall P o -> Forall P (obj_set k v o).
Proof.
  intros Hk. induction o as [|[k' v'] o IH]; intros Ho; simpl.
  - destruct (String.eqb k "__proto__"); auto.
  - inversion Ho; subst. destruct (String.eqb k' k); auto.
Qed.




Lemma zeroCounts_zero (stages : list Stage) :
  Forall (fun kv => snd kv = 0) (zeroCounts stages).
Proof.
  unfold zeroCounts.
  assert (G : forall l o, Forall (fun kv : string * nat => snd kv = 0) o ->
              Forall (fun kv => snd kv = 0)
                (fold_left (fun acc stage => obj_set (id stage) 0 acc) l o)).
  { induction l as [|s l IH]; intros o Ho; simpl; [exact Ho|].
    apply IH. now apply obj_set_Forall. }
  apply G. constructor.
Qed.


Lemma calculateStageCounts_no_bags (this : Dashboard) (belt : option Belt) :
  no_bags belt ->
  calculateStageCounts this belt = Ok (zeroCounts (beltStages this)).
Proof.
  unfold calculateStageCounts, getBeltStages, no_bags.
  destruct belt as [b|]; [|reflexivity].
  intros [-> | ->]; reflexivity.
Qed.


(** A table whose only id is [__proto__] yields a mapping without entries,
    hence no dominant stage. *)
Lemma proto_id_leaves_no_entry :
  getDominantStage (Some (zeroCounts [plainStage "__proto__" 0 100])) = None.
Proof. reflexivity. Qed.



(* ================================================================== *)
(** * Own properties: lookup after assignment *)
(* ================================================================== *)

Lemma obj_get_Some_In (k : string) (o : object) (c : nat) :
  obj_get k o = Some c -> In k (map fst o).
Proof.
  induction o as [|[k' v'] o IH]; simpl; [discriminate|].
  destruct (String.eqb_spec k' k) as [->|N]; [now left|].
  intros H. right. now apply IH.
Qed.

Lemma In_obj_get (k : string) (o : object) :
  In k (map fst o) -> exists c, obj_get k o = Some c.
Proof.
  induction o as [|[k' v'] o IH]; simpl; [contradiction|].
  destruct (String.eqb_spec k' k) as [->|N]; [eauto|].
  intros [H|H]; [contradiction | now apply IH].
Qed.

Lemma obj_get_not_In (k : string) (o : object) :
  ~ In k (map fst o) -> obj_get k o = None.
Proof.
  intros H. destruct (obj_get k o) as [c|] eqn:E; [|reflexivity].
  apply obj_get_Some_In in E. contradiction.
Qed.

Lemma obj_set_keys (k : string) (v : nat) (o : object) :
  In k (map fst o) -> map fst (obj_set k v o) = map fst o.
Proof.
  induction o as [|[k' v'] o IH]; simpl; [contradiction|].
  destruct (String.eqb_spec k' k) as [->|N]; [reflexivity|].
  intros [H|H]; [contradiction|]. simpl. now rewrite IH.
Qed.

Lemma obj_set_fresh (k : string) (v : nat) (o : object) :
  ~ In k (map fst o) -> k <> "__proto__"%string ->
  obj_set k v o = o ++ [(k, v)].
Proof.
  intros Hk Hp. induction o as [|[k' v'] o IH]; simpl.
  - apply String.eqb_neq in Hp. now rewrite Hp.
  - simpl in Hk. destruct (String.eqb_spec k' k) as [->|N]; [tauto|].
    rewrite IH; [reflexivity | tauto].
Qed.

Lemma obj_get_set_same (k : string) (v c : nat) (o : object) :
  obj_get k o = Some c -> obj_get k (obj_set k v o) = Some v.
Proof.
  induction o as [|[k' v'] o IH]; simpl; [discriminate|].
  destruct (String.eqb_spec k' k) as [->|N]; simpl.
  - now rewrite String.eqb_refl.
  - apply String.eqb_neq in N. rewrite N. exact IH.
Qed.

Lemma obj_get_set_other (k k' : string) (v : nat) (o : object) :
  k' <> k -> obj_get k' (obj_set k v o) = obj_get k' o.
Proof.
  intros N. induction o as [|[k1 v1] o IH]; simpl.
  - destruct (String.eqb k "__proto__"); [reflexivity|]. simpl.
    destruct (String.eqb_spec k k'); [congruence | reflexivity].
  - destruct (String.eqb_spec k1 k) as [->|N1]; simpl.
    + destruct (String.eqb_spec k k'); [congruence | reflexivity].
    + now rewrite IH.
Qed.

Lemma obj_set_proto (v : nat) (o : object) :
  ~ In "__proto__"%string (map fst o) -> obj_set "__proto__" v o = o.
Proof.
  induction o as [|[k' v'] o IH]; simpl; [reflexivity|].
  intros H. destruct (String.eqb_spec k' "__proto__") as [->|N]; [tauto|].
  rewrite IH; [reflexivity | tauto].
Qed.

Lemma obj_set_NoDup (k : string) (v : nat) (o : object) :
  NoDup (map fst o) -> NoDup (map fst (obj_set k v o)).
Proof.
  intros H. destruct (in_dec string_dec k (map fst o)) as [Hin|Hout].
  - now rewrite obj_set_keys.
  - destruct (string_dec k "__proto__") as [->|Hp].
    + now rewrite obj_set_proto.
    + rewrite obj_set_fresh by assumption. rewrite map_app. simpl.
      apply Permutation_NoDup with (l := k :: map fst o).
      * apply Permutation_cons_append.
      * now constructor.
Qed.

(** Two objects with the same names in the same order, each name once,
    and the same value under every name, are the same object. *)
Lemma obj_ext (a b : object) :
  map fst a = map fst b -> NoDup (map fst a) ->
  (forall k, obj_get k a = obj_get k b) -> a = b.
Proof.
  revert b. induction a as [|[ka va] a IH]; intros [|[kb vb] b]; simpl;
    try discriminate; [reflexivity|].
  intros [= -> Hk] Hnd Hget. inversion Hnd as [|? ? Hout Hnd']; subst.
  pose proof (Hget kb) as H0. rewrite String.eqb_refl in H0.
  injection H0 as ->. f_equal. apply IH; [exact Hk | exact Hnd'|].
  intros k. specialize (Hget k).
  destruct (String.eqb_spec kb k) as [->|N]; [|exact Hget].
  rewrite !obj_get_not_In; [reflexivity | now rewrite <- Hk | exact Hout].
Qed.

(* ================================================================== *)
(** * The zero-initialised mapping of a table with distinct ids *)
(* ================================================================== *)

Lemma zero_fill_keys (l : list Stage) (o : object) :
  NoDup (map fst o) ->
  NoDup (map fst
           (fold_left (fun acc stage => obj_set (id stage) 0 acc) l o))
  /\ (forall k,
         In k (map fst
                 (fold_left (fun acc stage => obj_set (id stage) 0 acc) l o)) ->
         In k (map fst o) \/ In k (map id l)).
Proof.
  revert o. induction l as [|s l IH]; intros o Ho; cbn [fold_left].
  - split; [exact Ho | tauto].
  - destruct (IH (obj_set (id s) 0 o) (obj_set_NoDup (id s) 0 o Ho))
      as [Hnd Hsub].
    split; [exact Hnd|]. intros k Hk. destruct (Hsub k Hk) as [H|H].
    + destruct (in_dec string_dec (id s) (map fst o)) as [Hin|Hout].
      * rewrite obj_set_keys in H by assumption. now left.
      * destruct (string_dec k (id s)) as [->|N]; [right; now left|].
        left. destruct (In_obj_get k _ H) as (c & Hc).
        rewrite obj_get_set_other in Hc by assumption.
        now apply obj_get_Some_In in Hc.
    + right. now right.
Qed.

Lemma zeroCounts_NoDup (stages : list Stage) :
  NoDup (map fst (zeroCounts stages)).
Proof. apply (zero_fill_keys stages []). constructor. Qed.

Lemma zeroCounts_keys_ids (stages : list Stage) (k : string) :
  In k (map fst (zeroCounts stages)) -> In k (map id stages).
Proof.
  intros H. destruct (zero_fill_keys stages [] (NoDup_nil _)) as [_ Hsub].
  destruct (Hsub k H) as [[]|Hk]. exact Hk.
Qed.

Lemma zero_fill_distinct (l : list Stage) (o : object) :
  NoDup (map fst o ++ map id l) ->
  (forall s, In s l -> id s <> "__proto__"%string) ->
  fold_left (fun acc stage => obj_set (id stage) 0 acc) l o
  = o ++ map (fun s => (id s, 0)) l.
Proof.
  revert o. induction l as [|s l IH]; intros o Hnd Hp; cbn [fold_left map].
  - now rewrite app_nil_r.
  - rewrite obj_set_fresh.
    + rewrite IH.
      * now rewrite <- app_assoc.
      * rewrite map_app, <- app_assoc. exact Hnd.
      * intros x Hx. apply Hp. now right.
    + simpl in Hnd. apply NoDup_remove_2 in Hnd. intros Hin. apply Hnd.
      apply in_or_app. now left.
    + apply Hp. now left.
Qed.

Lemma zeroCounts_distinct (stages : list Stage) :
  distinct_ids stages ->
  zeroCounts stages = map (fun s => (id s, 0)) stages.
Proof.
  intros [Hnd Hp]. unfold zeroCounts.
  rewrite zero_fill_distinct; [reflexivity | exact Hnd|].
  intros s Hs. apply Hp. now apply in_map.
Qed.

Lemma zeroCounts_get (stages : list Stage) (k : string) :
  match obj_get k (zeroCounts stages) with
  | Some c => c
  | None => 0
  end = 0.
Proof.
  pose proof (zeroCounts_zero stages) as H.
  induction H as [|[k' v'] o Hv _ IH]; simpl; [reflexivity|].
  simpl in Hv. subst. destruct (String.eqb k' k); [reflexivity | exact IH].
Qed.

(* ================================================================== *)
(** * Loops *)
(* ================================================================== *)

Lemma forEach_app {A S : Type} (f : S -> A -> result S) (l1 l2 : list A)
  (s : S) :
  forEach f (l1 ++ l2) s = bind (forEach f l1 s) (forEach f l2).
Proof.
  revert s. induction l1 as [|x l1 IH]; intros s; simpl; [reflexivity|].
  destruct (f s x); simpl; [apply IH | reflexivity].
Qed.

(** A property the callback preserves holds of the final state. *)
Lemma forEach_inv {A S : Type} (P : S -> Prop) (f : S -> A -> result S)
  (l : list A) :
  (forall s x s', P s -> f s x = Ok s' -> P s') ->
  forall s r, P s -> forEach f l s = Ok r -> P r.
Proof.
  intros Hf. induction l as [|x l IH]; intros s r Hs; simpl.
  - now intros [= <-].
  - destruct (f s x) as [s'|e] eqn:E; simpl; [|discriminate].
    apply IH. exact (Hf s x s' Hs E).
Qed.

(** A loop whose callback returns on every element returns. *)
Lemma forEach_returns {A S : Type} (f : S -> A -> result S) (l : list A) :
  (forall s x, In x l -> exists s', f s x = Ok s') ->
  forall s, exists r, forEach f l s = Ok r.
Proof.
  induction l as [|x l IH]; intros Hf s; simpl; [eauto|].
  destruct (Hf s x (or_introl eq_refl)) as (s' & ->). simpl.
  apply IH. intros s0 y Hy. apply Hf. now right.
Qed.

(** Two callbacks that agree on the states an invariant describes run the
    same loop. *)
Lemma forEach_agree {A S : Type} (P : S -> Prop) (f g : S -> A -> result S)
  (l : list A) :
  (forall s x, P s -> f s x = g s x) ->
  (forall s x s', P s -> g s x = Ok s' -> P s') ->
  forall s, P s -> forEach f l s = forEach g l s.
Proof.
  intros Hfg Hg. induction l as [|x l IH]; intros s Hs; simpl; [reflexivity|].
  rewrite (Hfg s x Hs). destruct (g s x) as [s'|e] eqn:E; simpl;
    [|reflexivity].
  apply IH. exact (Hg s x s' Hs E).
Qed.

(* ================================================================== *)
(** * calculateStageCounts in any stage table *)
(* ================================================================== *)

Lemma countBag_keys (this : Dashboard) (counts counts' : object)
  (bag : option Bag) :
  countBag this counts bag = Ok counts' -> map fst counts' = map fst counts.
Proof.
  unfold countBag. destruct bag as [b|]; [|discriminate].
  destruct (getStageForPosition this (position b)) as [k|];
    [|now intros [= <-]].
  destruct (String.eqb k ""); [now intros [= <-]|].
  destruct (obj_get k counts) as [c|] eqn:E; intros [= <-]; [|reflexivity].
  apply obj_set_keys. now apply obj_get_Some_In in E.
Qed.

Lemma countBag_returns (this : Dashboard) (counts : object) (b : Bag) :
  exists counts', countBag this counts (Some b) = Ok counts'.
Proof.
  unfold countBag.
  destruct (getStageForPosition this (position b)) as [k|]; [|eauto].
  destruct (String.eqb k ""); [eauto|].
  destruct (obj_get k counts); eauto.
Qed.

Lemma calculateStageCounts_bags (this : Dashboard) (belt : option Belt) :
  calculateStageCounts this belt
  = forEach (countBag this) (bags_of belt) (zeroCounts (beltStages this)).
Proof.
  unfold calculateStageCounts, bags_of, getBeltStages.
  destruct belt as [b|]; [|reflexivity].
  destruct (bags_on_belt b); reflexivity.
Qed.

Lemma calculateStageCounts_keys (this : Dashboard) (belt : option Belt)
  (counts : object) :
  calculateStageCounts this belt = Ok counts ->
  map fst counts = map fst (zeroCounts (beltStages this)).
Proof.
  rewrite calculateStageCounts_bags.
  apply (forEach_inv
           (fun o => map fst o = map fst (zeroCounts (beltStages this)))).
  - intros s x s' Hs E. apply countBag_keys in E. congruence.
  - reflexivity.
Qed.

Lemma calculateStageCounts_returns (this : Dashboard) (belt : option Belt) :
  bags_are_objects belt ->
  exists counts, calculateStageCounts this belt = Ok counts.
Proof.
  intros H. rewrite calculateStageCounts_bags. apply forEach_returns.
  intros s [b|] Hx; [apply countBag_returns|].
  unfold bags_are_objects in H. rewrite Forall_forall in H.
  now elim (H None Hx).
Qed.

(* ================================================================== *)
(** * The loop over the stages in aggregateStageCounts *)
(* ================================================================== *)

Lemma addStage_keys (counts totals : object) (s : Stage) :
  map fst (addStage counts totals s) = map fst totals.
Proof.
  unfold addStage. destruct (obj_get (id s) totals) as [t|] eqn:E;
    [|reflexivity].
  apply obj_set_keys. now apply obj_get_Some_In in E.
Qed.

Lemma addStage_get (counts totals : object) (s : Stage) (k : string) :
  obj_get k (addStage counts totals s)
  = if String.eqb (id s) k
    then option_map (fun t => t + countOrZero counts k) (obj_get k totals)
    else obj_get k totals.
Proof.
  unfold addStage. destruct (String.eqb_spec (id s) k) as [<-|N].
  - destruct (obj_get (id s) totals) as [t|] eqn:E.
    + now rewrite (obj_get_set_same _ _ t _ E).
    + now rewrite E.
  - destruct (obj_get (id s) totals) as [t|]; [|reflexivity].
    apply obj_get_set_other. congruence.
Qed.

Lemma fold_addStage_keys (counts : object) (l : list Stage) (totals : object) :
  map fst (fold_left (addStage counts) l totals) = map fst totals.
Proof.
  revert totals. induction l as [|s l IH]; intros totals; simpl;
    [reflexivity|].
  now rewrite IH, addStage_keys.
Qed.

Lemma fold_addStage_get (counts : object) (l : list Stage) :
  NoDup (map id l) ->
  forall totals k,
    obj_get k (fold_left (addStage counts) l totals)
    = if in_dec string_dec k (map id l)
      then option_map (fun t => t + countOrZero counts k) (obj_get k totals)
      else obj_get k totals.
Proof.
  induction l as [|s l IH]; intros Hnd totals k; [reflexivity|].
  inversion Hnd as [|? ? Hout Hnd']; subst. cbn [fold_left].
  rewrite (IH Hnd'), addStage_get.
  destruct (in_dec string_dec k (map id l)) as [Hl|Hl];
    destruct (in_dec string_dec k (map id (s :: l))) as [Hs|Hs];
    destruct (String.eqb_spec (id s) k) as [E|E]; simpl in Hs;
    try reflexivity; try tauto.
  subst. contradiction.
Qed.

Lemma sumCounts_keys (x y : object) : map fst (sumCounts x y) = map fst x.
Proof. unfold sumCounts. rewrite map_map. reflexivity. Qed.

Lemma sumCounts_get (x y : object) (k : string) :
  obj_get k (sumCounts x y)
  = option_map (fun t => t + countOrZero y k) (obj_get k x).
Proof.
  induction x as [|[k' v'] x IH]; simpl; [reflexivity|].
  destruct (String.eqb_spec k' k) as [->|N]; [reflexivity | exact IH].
Qed.

(** With distinct ids the loop over the stages is the sum key by key. *)
Lemma fold_addStage_sum (stages : list Stage) (counts totals : object) :
  NoDup (map id stages) ->
  NoDup (map fst totals) ->
  (forall k, In k (map fst totals) -> In k (map id stages)) ->
  fold_left (addStage counts) stages totals = sumCounts totals counts.
Proof.
  intros Hids Hnd Hsub. apply obj_ext.
  - now rewrite fold_addStage_keys, sumCounts_keys.
  - now rewrite fold_addStage_keys.
  - intros k. rewrite (fold_addStage_get counts stages Hids), sumCounts_get.
    destruct (in_dec string_dec k (map id stages)) as [H|H]; [reflexivity|].
    rewrite obj_get_not_In; [reflexivity|]. intros Hk. apply H. now apply Hsub.
Qed.

Lemma sumCounts_zero_l (stages : list Stage) (counts : object) :
  map fst counts = map fst (zeroCounts stages) ->
  sumCounts (zeroCounts stages) counts = counts.
Proof.
  intros Hk. apply obj_ext.
  - now rewrite sumCounts_keys.
  - rewrite sumCounts_keys. apply zeroCounts_NoDup.
  - intros k. rewrite sumCounts_get. unfold countOrZero.
    pose proof (zeroCounts_get stages k) as Hz.
    destruct (obj_get k (zeroCounts stages)) as [z|] eqn:E; simpl.
    + subst z. apply obj_get_Some_In in E. rewrite <- Hk in E.
      destruct (In_obj_get k counts E) as (c & ->). reflexivity.
    + rewrite obj_get_not_In; [reflexivity|]. rewrite Hk. intros Hin.
      destruct (In_obj_get k _ Hin) as (c & Hc). congruence.
Qed.

Lemma sumCounts_zero_r (stages : list Stage) (totals : object) :
  sumCounts totals (zeroCounts stages) = totals.
Proof.
  unfold sumCounts, countOrZero.
  induction totals as [|[k v] totals IH]; simpl; [reflexivity|].
  rewrite IH. pose proof (zeroCounts_get stages k) as Hz. simpl in Hz.
  rewrite Hz, Nat.add_0_r. reflexivity.
Qed.

(** The callback of the loop over the belts, on a mapping with the keys of
    the zero-initialised one. *)
Lemma addBeltCounts_sum (this : Dashboard) (totals : object)
  (belt : option Belt) :
  NoDup (map id (beltStages this)) ->
  map fst totals = map fst (zeroCounts (beltStages this)) ->
  addBeltCounts this totals belt
  = (counts <- calculateStageCounts this belt ;;
     Ok (sumCounts totals counts)).
Proof.
  intros Hids Hk. unfold addBeltCounts, getBeltStages.
  destruct (calculateStageCounts this belt) as [counts|e]; [|reflexivity].
  simpl. f_equal. apply fold_addStage_sum; [exact Hids | |].
  - rewrite Hk. apply zeroCounts_NoDup.
  - intros k. rewrite Hk. apply zeroCounts_keys_ids.
Qed.

Lemma aggregate_sum (this : Dashboard) (belts : list (option Belt)) :
  NoDup (map id (beltStages this)) ->
  forEach (addBeltCounts this) belts (zeroCounts (beltStages this))
  = forEach (fun totals belt =>
               counts <- calculateStageCounts this belt ;;
               Ok (sumCounts totals counts))
            belts (zeroCounts (beltStages this)).
Proof.
  intros Hids.
  apply (forEach_agree
           (fun o => map fst o = map fst (zeroCounts (beltStages this)))).
  - intros s x Hs. now apply addBeltCounts_sum.
  - intros s x s' Hs. destruct (calculateStageCounts this x); simpl;
      [|discriminate].
    intros [= <-]. now rewrite sumCounts_keys.
  - reflexivity.
Qed.

Lemma aggregate_keys (this : Dashboard) (belts : list (option Belt))
  (totals : object) :
  forEach (addBeltCounts this) belts (zeroCounts (beltStages this)) = Ok totals ->
  map fst totals = map fst (zeroCounts (beltStages this)).
Proof.
  apply (forEach_inv
           (fun o => map fst o = map fst (zeroCounts (beltStages this)))).
  - intros s x s' Hs. unfold addBeltCounts.
    destruct (calculateStageCounts this x); simpl; [|discriminate].
    intros [= <-]. now rewrite fold_addStage_keys.
  - reflexivity.
Qed.

(* ================================================================== *)
(** * Sums of counts *)
(* ================================================================== *)

Lemma Object_values_sum (o : object) : list_sum (Object_values o) = total o.
Proof.
  unfold Object_values, total. apply Permutation_list_sum.
  apply Permutation_map. apply Object_entries_perm.
Qed.

Lemma total_obj_set (k : string) (v c : nat) (o : object) :
  obj_get k o = Some c -> total (obj_set k v o) + c = total o + v.
Proof.
  unfold total. induction o as [|[k' v'] o IH]; simpl; [discriminate|].
  destruct (String.eqb k' k).
  - intros [= ->]. simpl. lia.
  - intros H. specialize (IH H). simpl. lia.
Qed.

Lemma total_zeroCounts (stages : list Stage) : total (zeroCounts stages) = 0.
Proof.
  unfold total. pose proof (zeroCounts_zero stages) as H.
  induction H as [|[k v] o Hv _ IH]; simpl; [reflexivity|].
  simpl in Hv. subst. exact IH.
Qed.

(** Every id of the table other than [__proto__] is a key of the
    zero-initialised mapping. *)
Lemma obj_set_keys_mono (k k' : string) (v : nat) (o : object) :
  In k (map fst o) -> In k (map fst (obj_set k' v o)).
Proof.
  intros H. destruct (in_dec string_dec k' (map fst o)) as [Hin|Hout].
  - now rewrite obj_set_keys.
  - destruct (string_dec k' "__proto__") as [->|Hp].
    + now rewrite obj_set_proto.
    + rewrite obj_set_fresh, map_app by assumption.
      apply in_or_app. now left.
Qed.

Lemma obj_set_keys_self (k : string) (v : nat) (o : object) :
  k <> "__proto__"%string -> In k (map fst (obj_set k v o)).
Proof.
  intros Hp. destruct (in_dec string_dec k (map fst o)) as [Hin|Hout].
  - now rewrite obj_set_keys.
  - rewrite obj_set_fresh, map_app by assumption.
    apply in_or_app. right. now left.
Qed.

Lemma zeroCounts_has_id (stages : list Stage) (k : string) :
  In k (map id stages) -> k <> "__proto__"%string ->
  In k (map fst (zeroCounts stages)).
Proof.
  intros Hk Hp. unfold zeroCounts.
  assert (G : forall l o,
             In k (map fst o) \/ In k (map id l) ->
             In k (map fst (fold_left
                              (fun acc stage => obj_set (id stage) 0 acc) l o))).
  { induction l as [|s l IH]; intros o H; cbn [fold_left].
    - destruct H as [H|[]]. exact H.
    - apply IH. destruct H as [H|[H|H]].
      + left. now apply obj_set_keys_mono.
      + left. rewrite H. now apply obj_set_keys_self.
      + now right. }
  apply G. now right.
Qed.

(* ================================================================== *)
(** * Conservation of bags *)
(* ================================================================== *)

Lemma countBag_total (this : Dashboard) (counts counts' : object)
  (bag : option Bag) :
  countBag this counts bag = Ok counts' -> total counts' <= S (total counts).
Proof.
  unfold countBag. destruct bag as [b|]; [|discriminate].
  destruct (getStageForPosition this (position b)) as [k|];
    [|intros [= <-]; lia].
  destruct (String.eqb k ""); [intros [= <-]; lia|].
  destruct (obj_get k counts) as [c|] eqn:E; intros [= <-]; [|lia].
  pose proof (total_obj_set k (c + 1) c counts E). lia.
Qed.

Lemma forEach_countBag_total (this : Dashboard) (bags : list (option Bag))
  (counts counts' : object) :
  forEach (countBag this) bags counts = Ok counts' ->
  total counts' <= total counts + List.length bags.
Proof.
  revert counts. induction bags as [|bag bags IH]; intros counts; simpl.
  - intros [= <-]. lia.
  - destruct (countBag this counts bag) as [c1|e] eqn:E; simpl; [|discriminate].
    intros H. apply IH in H. apply countBag_total in E. lia.
Qed.

(** One bag, in a table whose ids can be counted under: exactly one count
    grows by one. *)
Lemma countBag_one (this : Dashboard) (counts : object) (b : Bag) :
  countable_ids (beltStages this) ->
  map fst counts = map fst (zeroCounts (beltStages this)) ->
  exists counts',
    countBag this counts (Some b) = Ok counts'
    /\ total counts' = S (total counts).
Proof.
  intros [Hne Hids] Hkeys. unfold countBag.
  destruct (getStageForPosition this (position b)) as [k|] eqn:E.
  - pose proof (getStageForPosition_in this (position b) k E) as Hk.
    destruct (Hids k Hk) as [Hempty Hproto].
    apply String.eqb_neq in Hempty. rewrite Hempty.
    pose proof (zeroCounts_has_id (beltStages this) k Hk Hproto) as Hin.
    rewrite <- Hkeys in Hin. destruct (In_obj_get k counts Hin) as (c & Hc).
    rewrite Hc. eexists. split; [reflexivity|].
    pose proof (total_obj_set k (c + 1) c counts Hc). lia.
  - apply getStageForPosition_None in E. contradiction.
Qed.

Lemma calculateStageCounts_conservation (this : Dashboard)
  (belt : option Belt) :
  countable_ids (beltStages this) ->
  bags_are_objects belt ->
  exists counts,
    calculateStageCounts this belt = Ok counts
    /\ total counts = List.length (bags_of belt).
Proof.
  intros Hids Hbags. rewrite calculateStageCounts_bags.
  unfold bags_are_objects in Hbags.
  assert (G : forall bags,
             Forall (fun bag : option Bag => bag <> None) bags ->
             forall counts,
               map fst counts = map fst (zeroCounts (beltStages this)) ->
               exists counts',
                 forEach (countBag this) bags counts = Ok counts'
                 /\ total counts' = total counts + List.length bags).
  { induction 1 as [|bag bags Hbag _ IH]; intros counts Hkeys.
    - exists counts. split; [reflexivity | simpl; lia].
    - destruct bag as [b|]; [|congruence].
      destruct (countBag_one this counts b Hids Hkeys) as (c1 & E1 & T1).
      destruct (IH c1) as (c2 & E2 & T2).
      { apply countBag_keys in E1. congruence. }
      exists c2. cbn [forEach]. rewrite E1. cbn [bind].
      split; [exact E2 | simpl; lia]. }
  destruct (G (bags_of belt) Hbags (zeroCounts (beltStages this)) eq_refl)
    as (counts & E & T).
  exists counts. split; [exact E|]. rewrite T, total_zeroCounts. reflexivity.
Qed.

Lemma constructor_countable_ids (cfg : option Config) :
  countable_ids (beltStages (constructor cfg)).
Proof.
  split; [discriminate|].
  intros k [<-|[<-|[<-|[<-|[]]]]]; split; discriminate.
Qed.

Lemma numeric_positions_objects (belt : option Belt) :
  numeric_positions belt -> bags_are_objects belt.
Proof.
  unfold numeric_positions, bags_are_objects. apply Forall_impl.
  intros bag (b & n & -> & _). discriminate.
Qed.

(** C2. In the table of the constructor, and in every non-empty stage table
    whose ids are neither empty nor [__proto__], the counts of a belt whose
    bags all have a number as position sum to the number of bags; and in
    every stage table the counts of a belt sum to at most its number of
    bags. *)
Theorem stage_counts_conservation :
  (forall cfg belt,
      numeric_positions belt ->
      exists counts,
        calculateStageCounts (constructor cfg) belt = Ok counts
        /\ list_sum (Object_values counts) = List.length (bags_of belt)) /\
  (forall this belt,
      countable_ids (beltStages this) ->
      numeric_positions belt ->
      exists counts,
        calculateStageCounts this belt = Ok counts
        /\ list_sum (Object_values counts) = List.length (bags_of belt)) /\
  (forall this belt counts,
      calculateStageCounts this belt = Ok counts ->
      list_sum (Object_values counts) <= List.length (bags_of belt)).
Proof.
  assert (G : forall this belt,
             countable_ids (beltStages this) ->
             numeric_positions belt ->
             exists counts,
               calculateStageCounts this belt = Ok counts
               /\ list_sum (Object_values counts)
                  = List.length (bags_of belt)).
  { intros this belt Hids H. apply numeric_positions_objects in H.
    destruct (calculateStageCounts_conservation this belt Hids H)
      as (counts & E & T).
    exists counts. split; [exact E|]. now rewrite Object_values_sum. }
  refine (conj _ (conj G _)).
  - intros cfg belt H. apply G; [apply constructor_countable_ids | exact H].
  - intros this belt counts. rewrite Object_values_sum.
    rewrite calculateStageCounts_bags. intros H.
    apply forEach_countBag_total in H.
    now rewrite total_zeroCounts in H.
Qed.

(** Three bags, one of them beyond the end of the belt. *)
Lemma stage_counts_conservation_witness :
  let belt :=
    Some {| belt_id := "B1";
            bags_on_belt :=
              BagsArray [Some {| bag_id := "b1"; position := Number (Fin 10) |};
                         Some {| bag_id := "b2"; position := Number (Fin 60) |};
                         Some {| bag_id := "b3"; position := Number (Fin 130) |}]
         |} in
  (exists counts,
      calculateStageCounts (constructor None) belt = Ok counts
      /\ list_sum (Object_values counts) = 3)
  /\ (exists counts,
         calculateStageCounts
           (withStages [plainStage "low" 0 50; plainStage "high" 50 100]) belt
         = Ok counts
         /\ list_sum (Object_values counts) = 3)
  /\ list_sum (Object_values (counts4 1 0 1 1)) <= 3.
Proof.
  intros belt.
  destruct stage_counts_conservation as (Hdefault & Hany & Hle).
  assert (Hnum : numeric_positions belt).
  { repeat constructor; eexists; eexists; split; reflexivity. }
  split; [|split].
  - apply (Hdefault None belt Hnum).
  - apply (Hany (withStages [plainStage "low" 0 50; plainStage "high" 50 100])
             belt); [|exact Hnum].
    split; [discriminate|].
    intros k [<-|[<-|[]]]; split; discriminate.
  - apply (Hle (constructor None) belt). reflexivity.
Defined.

(* ================================================================== *)
(** * aggregateStageCounts *)
(* ================================================================== *)

Lemma constructor_distinct_ids (cfg : option Config) :
  distinct_ids (beltStages (constructor cfg)).
Proof.
  split.
  - repeat constructor; simpl; intuition discriminate.
  - intros k [<-|[<-|[<-|[<-|[]]]]]; discriminate.
Qed.

Lemma calculateStageCounts_no_bag_list (this : Dashboard)
  (belt : option Belt) :
  no_bag_list belt ->
  calculateStageCounts this belt = Ok (zeroCounts (beltStages this)).
Proof.
  intros H. apply calculateStageCounts_no_bags.
  destruct belt as [b|]; [left; exact H | exact I].
Qed.

Lemma aggregate_of_counts (this : Dashboard) (belts : list (option Belt))
  (cs : list object) :
  Forall2 (fun belt counts => calculateStageCounts this belt = Ok counts)
          belts cs ->
  forall totals,
    forEach (fun totals belt =>
               counts <- calculateStageCounts this belt ;;
               Ok (sumCounts totals counts)) belts totals
    = Ok (fold_left sumCounts cs totals).
Proof.
  induction 1 as [|belt c0 belts cs E _ IH]; intros totals; [reflexivity|].
  cbn [forEach fold_left]. rewrite E. cbn [bind]. apply IH.
Qed.

(** X20. In a stage table with distinct ids, aggregating two belts gives
    the element-wise sum of their stage counts; aggregating any list of
    belts gives the element-wise sum of the counts of the belts, taken from
    the zero-initialised mapping on, and throws when the counting of a belt
    throws; and a belt that is absent or has no list of bags has all-zero
    counts and can be left out of the list without changing the aggregate
    of the others. *)
Theorem aggregate_is_elementwise_sum (this : Dashboard) :
  NoDup (map id (beltStages this)) ->
  (forall beltA beltB,
      aggregateStageCounts this (Some [beltA; beltB])
      = (countsA <- calculateStageCounts this beltA ;;
         countsB <- calculateStageCounts this beltB ;;
         Ok (sumCounts countsA countsB))) /\
  (forall belts,
      aggregateStageCounts this (Some belts)
      = forEach (fun totals belt =>
                   counts <- calculateStageCounts this belt ;;
                   Ok (sumCounts totals counts))
                belts (zeroCounts (beltStages this))) /\
  (forall belts cs,
      Forall2 (fun belt counts => calculateStageCounts this belt = Ok counts)
              belts cs ->
      aggregateStageCounts this (Some belts)
      = Ok (fold_left sumCounts cs (zeroCounts (beltStages this)))) /\
  (forall before belt after,
      no_bag_list belt ->
      calculateStageCounts this belt = Ok (zeroCounts (beltStages this))
      /\ aggregateStageCounts this (Some (before ++ belt :: after))
         = aggregateStageCounts this (Some (before ++ after))).
Proof.
  intros Hids.
  assert (Hsum : forall belts,
             aggregateStageCounts this (Some belts)
             = forEach (fun totals belt =>
                          counts <- calculateStageCounts this belt ;;
                          Ok (sumCounts totals counts))
                       belts (zeroCounts (beltStages this))).
  { intros belts. unfold aggregateStageCounts, getBeltStages.
    now apply aggregate_sum. }
  refine (conj _ (conj Hsum (conj _ _))).
  - intros beltA beltB. rewrite Hsum. cbn [forEach].
    destruct (calculateStageCounts this beltA) as [cA|e] eqn:EA;
      [|reflexivity].
    cbn [bind]. rewrite sumCounts_zero_l
      by (now apply calculateStageCounts_keys with (belt := beltA)).
    destruct (calculateStageCounts this beltB); reflexivity.
  - intros belts cs H. rewrite Hsum. now apply aggregate_of_counts.
  - intros before belt after H.
    pose proof (calculateStageCounts_no_bag_list this belt H) as E.
    split; [exact E|]. rewrite !Hsum, !forEach_app.
    destruct (forEach _ before (zeroCounts (beltStages this))) as [t|e];
      [|reflexivity].
    cbn [bind forEach]. rewrite E. cbn [bind].
    now rewrite sumCounts_zero_r.
Qed.

Lemma aggregate_is_elementwise_sum_witness :
  let bag q := Some {| bag_id := "b"; position := Number (Fin q) |} in
  let beltA :=
    Some {| belt_id := "A"; bags_on_belt := BagsArray [bag 10%Q; bag 30%Q] |} in
  let beltB :=
    Some {| belt_id := "B"; bags_on_belt := BagsArray [bag 20%Q; bag 99%Q] |} in
  let malformed := Some {| belt_id := "C"; bags_on_belt := BagsNotArray |} in
  aggregateStageCounts (constructor None) (Some [beltA; beltB])
  = Ok (fold_left sumCounts [counts4 1 1 0 0; counts4 1 0 0 1]
          (counts4 0 0 0 0))
  /\ calculateStageCounts (constructor None) malformed
     = Ok (counts4 0 0 0 0)
  /\ aggregateStageCounts (constructor None)
       (Some ([beltA] ++ malformed :: [beltB]))
     = aggregateStageCounts (constructor None) (Some ([beltA] ++ [beltB])).
Proof.
  intros bag beltA beltB malformed.
  assert (Hids : NoDup (map id (beltStages (constructor None)))).
  { repeat constructor; simpl; intuition discriminate. }
  destruct (aggregate_is_elementwise_sum (constructor None) Hids)
    as (_ & _ & Hsum & Hskip).
  split.
  - apply (Hsum [beltA; beltB] [counts4 1 1 0 0; counts4 1 0 0 1]).
    repeat constructor.
  - apply (Hskip [beltA] malformed [beltB]). reflexivity.
Defined.

(* ================================================================== *)
(** * Shape of the mappings returned *)
(* ================================================================== *)

Lemma Object_keys_perm (o : object) : Permutation (Object_keys o) (map fst o).
Proof.
  unfold Object_keys. apply Permutation_map. apply Object_entries_perm.
Qed.

Lemma zeroCounts_ids (stages : list Stage) :
  distinct_ids stages -> map fst (zeroCounts stages) = map id stages.
Proof.
  intros H. rewrite (zeroCounts_distinct stages H), map_map. reflexivity.
Qed.

(** X21. In a stage table with distinct ids, none of them [__proto__]: for
    an absent belt, a belt without a list of bags and a belt whose list of
    bags holds bags (no [null]) with any positions whatever,
    [calculateStageCounts] returns (it does not throw) a mapping with
    exactly one entry for each stage, which holds a natural number; so does
    [aggregateStageCounts] for a list of such belts and for a belt
    collection that is not a list; and a belt without bags gets the mapping
    with 0 for every stage. *)
Theorem stage_counts_well_formed (this : Dashboard) :
  distinct_ids (beltStages this) ->
  (forall belt,
      bags_are_objects belt ->
      exists counts,
        calculateStageCounts this belt = Ok counts
        /\ map fst counts = map id (beltStages this)
        /\ Permutation (Object_keys counts) (map id (beltStages this))) /\
  (forall belts,
      Forall bags_are_objects belts ->
      exists totals,
        aggregateStageCounts this (Some belts) = Ok totals
        /\ map fst totals = map id (beltStages this)
        /\ Permutation (Object_keys totals) (map id (beltStages this))) /\
  (forall belt,
      no_bags belt ->
      calculateStageCounts this belt
      = Ok (map (fun stage => (id stage, 0)) (beltStages this))) /\
  aggregateStageCounts this None
  = Ok (map (fun stage => (id stage, 0)) (beltStages this)).
Proof.
  intros Hids. pose proof (zeroCounts_ids _ Hids) as Hkeys.
  refine (conj _ (conj _ (conj _ _))).
  - intros belt H.
    destruct (calculateStageCounts_returns this belt H) as (counts & E).
    exists counts. pose proof (calculateStageCounts_keys this belt counts E) as K.
    rewrite Hkeys in K. split; [exact E|]. split; [exact K|].
    rewrite <- K. apply Object_keys_perm.
  - intros belts H.
    assert (R : exists totals,
               aggregateStageCounts this (Some belts) = Ok totals).
    { unfold aggregateStageCounts. apply forEach_returns.
      intros s belt Hb. unfold addBeltCounts.
      rewrite Forall_forall in H.
      destruct (calculateStageCounts_returns this belt (H belt Hb))
        as (counts & ->).
      simpl. eauto. }
    destruct R as (totals & E). exists totals.
    pose proof (aggregate_keys this belts totals E) as K.
    rewrite Hkeys in K. split; [exact E|]. split; [exact K|].
    rewrite <- K. apply Object_keys_perm.
  - intros belt H. rewrite <- (zeroCounts_distinct _ Hids).
    now apply calculateStageCounts_no_bags.
  - unfold aggregateStageCounts, getBeltStages.
    now rewrite (zeroCounts_distinct _ Hids).
Qed.

Lemma stage_counts_well_formed_witness :
  let bag p := Some {| bag_id := "b"; position := p |} in
  let belt := Some {| belt_id := "A";
                      bags_on_belt := BagsArray [bag Undefined;
                                                 bag (Number (Fin (-3)));
                                                 bag (Coercible NaN)] |} in
  (exists counts,
      calculateStageCounts (constructor None) belt = Ok counts
      /\ map fst counts = map id defaultBeltStages
      /\ Permutation (Object_keys counts) (map id defaultBeltStages))
  /\ (exists totals,
         aggregateStageCounts (constructor None) (Some [None; belt]) = Ok totals
         /\ map fst totals = map id defaultBeltStages
         /\ Permutation (Object_keys totals) (map id defaultBeltStages))
  /\ calculateStageCounts (constructor None) None
     = Ok (counts4 0 0 0 0).
Proof.
  intros bag belt.
  assert (Hids : distinct_ids (beltStages (constructor None))).
  { split.
    - repeat constructor; simpl; intuition discriminate.
    - intros k [<-|[<-|[<-|[<-|[]]]]]; discriminate. }
  destruct (stage_counts_well_formed (constructor None) Hids)
    as (Hcounts & Htotals & Hzero & _).
  split; [|split].
  - apply (Hcounts belt). repeat constructor; discriminate.
  - apply (Htotals [None; belt]). repeat constructor; discriminate.
  - apply (Hzero None). exact I.
Defined.

(** A [null] in the list of bags makes [calculateStageCounts] throw. *)
Lemma null_bag_throws (this : Dashboard) (b : string) :
  calculateStageCounts this
    (Some {| belt_id := b; bags_on_belt := BagsArray [None] |})
  = Throw TypeError.
Proof. reflexivity. Qed.

(** C6, at the input [{belt_id: "A", bags_on_belt: [null]}].  The guards of
    [calculateStageCounts] turn away an absent belt and a belt without a
    list of bags, but reading [bag.position] of the [null] element throws a
    [TypeError]; [aggregateStageCounts] throws with it.  The same belt
    without the [null] gets the all-zero mapping. *)
Theorem null_bag_counts_throw :
  let belt := Some {| belt_id := "A"; bags_on_belt := BagsArray [None] |} in
  let empty := Some {| belt_id := "A"; bags_on_belt := BagsArray [] |} in
  calculateStageCounts (constructor None) belt = Throw TypeError
  /\ aggregateStageCounts (constructor None) (Some [belt]) = Throw TypeError
  /\ calculateStageCounts (constructor None) empty = Ok (counts4 0 0 0 0)
  /\ aggregateStageCounts (constructor None) (Some [empty])
     = Ok (counts4 0 0 0 0).
Proof. cbv zeta. repeat split; reflexivity. Qed.

(** C4, at the input of three belts of which the second is
    [{belt_id: "C", bags_on_belt: [null]}].  The malformed belt does not
    contribute zero: [aggregateStageCounts] throws a [TypeError] and the
    belts that remain are not aggregated.  Without the malformed belt the
    aggregate is the element-wise sum of the counts of the other two. *)
Theorem null_bag_aborts_aggregation :
  let bag q := Some {| bag_id := "b"; position := Number (Fin q) |} in
  let beltA :=
    Some {| belt_id := "A"; bags_on_belt := BagsArray [bag 10%Q; bag 30%Q] |} in
  let beltB :=
    Some {| belt_id := "B"; bags_on_belt := BagsArray [bag 20%Q; bag 99%Q] |} in
  let malformed := Some {| belt_id := "C"; bags_on_belt := BagsArray [None] |} in
  aggregateStageCounts (constructor None) (Some [beltA; malformed; beltB])
  = Throw TypeError
  /\ aggregateStageCounts (constructor None) (Some [beltA; beltB])
     = Ok (counts4 2 1 0 1)
  /\ calculateStageCounts (constructor None) beltA = Ok (counts4 1 1 0 0)
  /\ calculateStageCounts (constructor None) beltB = Ok (counts4 1 0 0 1).
Proof. cbv zeta. repeat split; reflexivity. Qed.

(* ================================================================== *)
(** * getStageFlowState *)
(* ================================================================== *)

Lemma strict_eq_zero_iff (count : value) :
  strict_eq_zero count = true <-> is_zero count.
Proof.
  unfold is_zero. split.
  - destruct count as [| |b|[| |q|]|n]; simpl; try discriminate.
    intros H. exists q. split; [reflexivity | now apply Qeq_bool_iff].
  - intros (q & -> & H). simpl. now apply Qeq_bool_iff.
Qed.

(** C7. [getStageFlowState] follows the decision table from top to bottom:
    a zero count is ["Idle"]; otherwise a load of at least 60 is
    ["Congested"]; otherwise a load of at least 30 is ["Flowing"];
    otherwise ["Clearing"].  The four sample calls give the four labels, and
    equal arguments give equal results. *)
Theorem getStageFlowState_table :
  (forall loadPercent count,
      is_zero count -> getStageFlowState loadPercent count = "Idle"%string) /\
  (forall loadPercent count,
      ~ is_zero count -> num_le (Fin 60) (ToNumber loadPercent) ->
      getStageFlowState loadPercent count = "Congested"%string) /\
  (forall loadPercent count,
      ~ is_zero count -> ~ num_le (Fin 60) (ToNumber loadPercent) ->
      num_le (Fin 30) (ToNumber loadPercent) ->
      getStageFlowState loadPercent count = "Flowing"%string) /\
  (forall loadPercent count,
      ~ is_zero count -> ~ num_le (Fin 60) (ToNumber loadPercent) ->
      ~ num_le (Fin 30) (ToNumber loadPercent) ->
      getStageFlowState loadPercent count = "Clearing"%string) /\
  getStageFlowState (Number (Fin 0)) (Number (Fin 0)) = "Idle"%string /\
  getStageFlowState (Number (Fin 65)) (Number (Fin 5)) = "Congested"%string /\
  getStageFlowState (Number (Fin 45)) (Number (Fin 5)) = "Flowing"%string /\
  getStageFlowState (Number (Fin 10)) (Number (Fin 5)) = "Clearing"%string /\
  (forall loadPercent count loadPercent' count',
      loadPercent = loadPercent' -> count = count' ->
      getStageFlowState loadPercent count
      = getStageFlowState loadPercent' count').
Proof.
  assert (Z : forall c, ~ is_zero c -> strict_eq_zero c = false).
  { intros c H. destruct (strict_eq_zero c) eqn:E; [|reflexivity].
    now apply strict_eq_zero_iff in E. }
  assert (G : forall a b, ~ num_le b a -> js_ge a b = false).
  { intros a b H. destruct (js_ge a b) eqn:E; [|reflexivity].
    now apply js_ge_iff in E. }
  refine (conj _ (conj _ (conj _ (conj _ _)))).
  - intros lp c H. unfold getStageFlowState.
    apply strict_eq_zero_iff in H. now rewrite H.
  - intros lp c Hc H60. unfold getStageFlowState.
    rewrite (Z c Hc). apply js_ge_iff in H60. now rewrite H60.
  - intros lp c Hc H60 H30. unfold getStageFlowState.
    rewrite (Z c Hc), (G _ _ H60). apply js_ge_iff in H30. now rewrite H30.
  - intros lp c Hc H60 H30. unfold getStageFlowState.
    now rewrite (Z c Hc), (G _ _ H60), (G _ _ H30).
  - repeat split. intros lp c lp' c' -> ->. reflexivity.
Qed.

(** The table at work: one call for each of its four rows. *)
Lemma getStageFlowState_table_witness :
  getStageFlowState (Number (Fin 80)) (Number (Fin 0)) = "Idle"%string
  /\ getStageFlowState (Number (Fin 60)) (Number (Fin 3)) = "Congested"%string
  /\ getStageFlowState (Number (Fin 30)) (Number (Fin 3)) = "Flowing"%string
  /\ getStageFlowState (Number (Fin 29)) (Number (Fin 3)) = "Clearing"%string.
Proof.
  destruct getStageFlowState_table as (Hidle & Hcong & Hflow & Hclear & _).
  assert (N3 : ~ is_zero (Number (Fin 3))).
  { intros (q & [= <-] & H). discriminate H. }
  split; [|split; [|split]].
  - apply Hidle. exists 0%Q. split; reflexivity.
  - apply Hcong; [exact N3|]. simpl. unfold Qle. simpl. lia.
  - apply Hflow; [exact N3| |]; simpl; unfold Qle; simpl; lia.
  - apply Hclear; [exact N3| |]; simpl; unfold Qle; simpl; lia.
Defined.

(* ================================================================== *)
(** * filterAlertsByScope *)
(* ================================================================== *)

Lemma includes_iff (l : list string) (s : string) : includes l s = true <-> In s l.
Proof.
  unfold includes. rewrite existsb_exists. split.
  - intros (x & Hx & E). apply String.eqb_eq in E. now subst.
  - intros H. exists s. split; [exact H | apply String.eqb_refl].
Qed.

Lemma alertInScope_iff (this : Dashboard) (alert : Alert) :
  alertInScope this alert = true <-> visible (alertScopes this) alert.
Proof.
  unfold alertInScope, visible.
  destruct (scope alert) as [| |[|t ts]] eqn:E; try tauto.
  rewrite existsb_exists. split.
  - intros (tag & Hin & H). right; right; right.
    exists (t :: ts), tag. split; [reflexivity|]. split; [exact Hin|].
    apply orb_true_iff in H. destruct H as [H|H].
    + right. now apply includes_iff.
    + left. now apply String.eqb_eq.
  - intros [H|[H|[H|(tags & tag & [= <-] & Hin & H)]]]; try discriminate.
    exists tag. split; [exact Hin|]. apply orb_true_iff.
    destruct H as [->|H]; [right; reflexivity | left; now apply includes_iff].
Qed.

(** C8. The scope filter keeps an alert exactly when its scope is missing,
    not a list or empty, or one of its tags is ["all"] or is among the
    viewer's scopes; every other alert is discarded, and the alerts kept
    stay in their order. *)
Theorem filterAlertsByScope_visible :
  (forall this alert,
      filterAlertsByScope this (Some [alert]) = [alert]
      <-> visible (alertScopes this) alert) /\
  (forall this alert,
      filterAlertsByScope this (Some [alert]) = []
      <-> ~ visible (alertScopes this) alert) /\
  (forall this alerts alert,
      In alert (filterAlertsByScope this (Some alerts))
      <-> In alert alerts /\ visible (alertScopes this) alert) /\
  (forall this alerts,
      filterAlertsByScope this (Some alerts)
      = filter (alertInScope this) alerts).
Proof.
  assert (F : forall this alerts,
             filterAlertsByScope this (Some alerts)
             = filter (alertInScope this) alerts).
  { intros this [|a l]; reflexivity. }
  refine (conj _ (conj _ (conj _ F))).
  - intros this a. rewrite F, <- alertInScope_iff. simpl.
    destruct (alertInScope this a); split; congruence.
  - intros this a. rewrite F, <- alertInScope_iff. simpl.
    destruct (alertInScope this a); split; congruence.
  - intros this alerts a. rewrite F, filter_In, alertInScope_iff. reflexivity.
Qed.

(** An alert tagged for terminal A is not kept for a viewer whose only
    scope is ["all"]. *)
Lemma terminal_alert_hidden_from_all_viewer :
  let alert := {| alert_id := "a1"; alert_type := "Jam"; priority := "High";
                  message := "Belt jam"; timestamp := "10:00";
                  scope := ScopeArray ["terminalA"%string] |} in
  let viewer :=
    constructor (Some {| config_alertScopes := ScopeArray ["all"%string] |}) in
  alertScopes viewer = ["all"%string]
  /\ filterAlertsByScope viewer (Some [alert]) = []
  /\ filterAlertsByScope viewer (Some [alert]) <> [alert].
Proof. cbv zeta. split; [|split]; [reflexivity | reflexivity | discriminate]. Qed.

(** C9, as the code behaves.  An alert whose scope is [["terminalA"]] is
    kept for a viewer whose scopes are [["terminalA"]] and discarded for a
    viewer whose scopes are [["all"]] or [["terminalB"]]; an alert with no
    scope field is kept for every viewer.  The constructor gives a viewer
    the scopes of the configuration, and [["all"]] when it lists none. *)
Theorem terminal_alert_scoping :
  (forall this alert,
      scope alert = ScopeArray ["terminalA"%string] ->
      (alertScopes this = ["terminalA"%string] ->
       filterAlertsByScope this (Some [alert]) = [alert])
      /\ (alertScopes this = ["all"%string] ->
          filterAlertsByScope this (Some [alert]) = [])
      /\ (alertScopes this = ["terminalB"%string] ->
          filterAlertsByScope this (Some [alert]) = [])) /\
  (forall this alert,
      scope alert = ScopeFalsy ->
      filterAlertsByScope this (Some [alert]) = [alert]) /\
  (forall cfg,
      (cfg = None \/ cfg = Some {| config_alertScopes := ScopeFalsy |}
       \/ cfg = Some {| config_alertScopes := ScopeArray [] |}
       \/ cfg = Some {| config_alertScopes := ScopeArray ["all"%string] |}) ->
      alertScopes (constructor cfg) = ["all"%string]) /\
  (forall tags,
      tags <> [] ->
      alertScopes (constructor (Some {| config_alertScopes := ScopeArray tags |}))
      = tags).
Proof.
  refine (conj _ (conj _ (conj _ _))).
  - intros this a E. unfold filterAlertsByScope, filter, alertInScope.
    rewrite E. repeat split; intros ->; reflexivity.
  - intros this a E. unfold filterAlertsByScope, filter, alertInScope.
    now rewrite E.
  - intros cfg [->|[->|[->| ->]]]; reflexivity.
  - intros [|t ts] H; [congruence | reflexivity].
Qed.

Lemma terminal_alert_scoping_witness :
  let alert := {| alert_id := "a1"; alert_type := "Jam"; priority := "High";
                  message := "Belt jam"; timestamp := "10:00";
                  scope := ScopeArray ["terminalA"%string] |} in
  let viewer tags :=
    constructor (Some {| config_alertScopes := ScopeArray tags |}) in
  filterAlertsByScope (viewer ["terminalA"%string]) (Some [alert]) = [alert]
  /\ filterAlertsByScope (constructor None) (Some [alert]) = []
  /\ filterAlertsByScope (viewer ["terminalB"%string]) (Some [alert]) = []
  /\ alertScopes (constructor None) = ["all"%string]
  /\ alertScopes (viewer ["terminalB"%string]) = ["terminalB"%string].
Proof.
  intros alert viewer.
  destruct terminal_alert_scoping as (Htag & _ & Hdefault & Hconfig).
  destruct (Htag (viewer ["terminalA"%string]) alert eq_refl) as (HA & _ & _).
  destruct (Htag (constructor None) alert eq_refl) as (_ & Hall & _).
  destruct (Htag (viewer ["terminalB"%string]) alert eq_refl) as (_ & _ & HB).
  split; [apply HA; reflexivity|].
  split; [apply Hall; reflexivity|].
  split; [apply HB; reflexivity|].
  split; [apply Hdefault; left; reflexivity|].
  apply Hconfig. discriminate.
Defined.

(* ================================================================== *)
(** * Counts as numbers of bags *)
(* ================================================================== *)

(** The loop over the bags adds to each count the number of bags of its
    stage; the count under the empty name never moves. *)
Lemma forEach_countBag_get (this : Dashboard) (bags : list (option Bag)) :
  forall counts counts' k,
    forEach (countBag this) bags counts = Ok counts' ->
    obj_get k counts'
    = option_map
        (fun c => c + if String.eqb k "" then 0 else bagsInStage this k bags)
        (obj_get k counts).
Proof.
  unfold bagsInStage.
  induction bags as [|bag bags IH]; intros counts counts' k; cbn [forEach].
  - intros [= <-]. destruct (obj_get k counts); simpl; [|reflexivity].
    f_equal. destruct (String.eqb k ""); lia.
  - destruct (countBag this counts bag) as [c1|e] eqn:E; cbn [bind];
      [|discriminate].
    intros H. rewrite (IH c1 counts' k H). clear IH H.
    unfold countBag in E. destruct bag as [b|]; [|discriminate].
    cbn [filter bagInStage].
    destruct (getStageForPosition this (position b)) as [k0|].
    + destruct (String.eqb_spec k0 "") as [E0|N0].
      * injection E as <-. subst k0.
        destruct (String.eqb_spec "" k) as [<-|N]; reflexivity.
      * destruct (obj_get k0 counts) as [c|] eqn:G; injection E as <-.
        -- destruct (String.eqb_spec k0 k) as [->|N].
           ++ rewrite (obj_get_set_same k (c + 1) c counts G), G.
              apply String.eqb_neq in N0. rewrite N0. simpl. f_equal. lia.
           ++ rewrite obj_get_set_other by congruence. reflexivity.
        -- destruct (String.eqb_spec k0 k) as [->|N]; [|reflexivity].
           now rewrite G.
    + injection E as <-. reflexivity.
Qed.

Lemma zeroCounts_get_Some (stages : list Stage) (k : string) :
  In k (map fst (zeroCounts stages)) -> obj_get k (zeroCounts stages) = Some 0.
Proof.
  intros H. destruct (In_obj_get k _ H) as (c & E).
  pose proof (zeroCounts_get stages k) as Z. rewrite E in Z. now subst.
Qed.

(** X1. For a belt whose bags are objects, the count [calculateStageCounts]
    returns under the id of a stage (an id that is neither empty nor
    [__proto__]) is the number of bags [getStageForPosition] classifies
    into that stage. *)
Theorem stage_count_is_bags_in_stage (this : Dashboard) (belt : option Belt) :
  bags_are_objects belt ->
  exists counts,
    calculateStageCounts this belt = Ok counts
    /\ forall stage,
         In stage (beltStages this) ->
         id stage <> ""%string -> id stage <> "__proto__"%string ->
         obj_get (id stage) counts
         = Some (bagsInStage this (id stage) (bags_of belt)).
Proof.
  intros H. destruct (calculateStageCounts_returns this belt H) as (counts & E).
  exists counts. split; [exact E|]. intros stage Hs Hempty Hproto.
  rewrite calculateStageCounts_bags in E.
  rewrite (forEach_countBag_get this (bags_of belt) _ counts (id stage) E).
  rewrite zeroCounts_get_Some.
  - apply String.eqb_neq in Hempty. rewrite Hempty. reflexivity.
  - apply zeroCounts_has_id; [now apply in_map | exact Hproto].
Qed.

Lemma stage_count_is_bags_in_stage_witness :
  let belt :=
    Some {| belt_id := "B1";
            bags_on_belt :=
              BagsArray [Some {| bag_id := "b1"; position := Number (Fin 10) |};
                         Some {| bag_id := "b2"; position := Number (Fin 60) |};
                         Some {| bag_id := "b3"; position := Number (Fin 70) |};
                         Some {| bag_id := "b4"; position := Undefined |}]
         |} in
  exists counts,
    calculateStageCounts (constructor None) belt = Ok counts
    /\ obj_get "security" counts = Some 2.
Proof.
  intros belt.
  destruct (stage_count_is_bags_in_stage (constructor None) belt)
    as (counts & E & H).
  { repeat constructor; discriminate. }
  exists counts. split; [exact E|].
  apply (H securityStage); [right; right; left; reflexivity | |];
    discriminate.
Defined.

(* ================================================================== *)
(** * The order of the bags *)
(* ================================================================== *)

Lemma bagsInStage_perm (this : Dashboard) (k : string)
  (bags bags' : list (option Bag)) :
  Permutation bags bags' -> bagsInStage this k bags = bagsInStage this k bags'.
Proof.
  unfold bagsInStage. induction 1 as [|x l l' _ IH|x y l|l l' l'' _ IH1 _ IH2];
    simpl.
  - reflexivity.
  - destruct (bagInStage this k x); simpl; congruence.
  - destruct (bagInStage this k x), (bagInStage this k y); reflexivity.
  - congruence.
Qed.

Lemma forEach_countBag_null (this : Dashboard) (bags : list (option Bag))
  (counts : object) :
  In None bags -> forEach (countBag this) bags counts = Throw TypeError.
Proof.
  revert counts. induction bags as [|bag bags IH]; intros counts; [intros []|].
  intros [->|H]; cbn [forEach]; [reflexivity|].
  destruct bag as [b|]; [|reflexivity].
  destruct (countBag_returns this counts b) as (c1 & ->). cbn [bind].
  now apply IH.
Qed.

Lemma bags_objects_or_null (bags : list (option Bag)) :
  Forall (fun bag : option Bag => bag <> None) bags \/ In None bags.
Proof.
  induction bags as [|[b|] bags IH]; [left; constructor | | right; now left].
  destruct IH as [IH|IH]; [left | right; now right].
  constructor; [discriminate | exact IH].
Qed.

(** X2. The order of the bags on a belt does not matter: two belts whose
    lists of bags are permutations of each other get the same result from
    [calculateStageCounts] (the same mapping, or the same exception). *)
Theorem stage_counts_bag_order (this : Dashboard) (belt belt' : option Belt) :
  Permutation (bags_of belt) (bags_of belt') ->
  calculateStageCounts this belt = calculateStageCounts this belt'.
Proof.
  intros P. rewrite !calculateStageCounts_bags.
  destruct (bags_objects_or_null (bags_of belt)) as [Hobj|Hnull].
  - assert (Hobj' : Forall (fun bag : option Bag => bag <> None) (bags_of belt')).
    { rewrite Forall_forall in *. intros x Hx. apply Hobj.
      apply Permutation_in with (l := bags_of belt'); [now symmetry | exact Hx]. }
    destruct (calculateStageCounts_returns this belt Hobj) as (c & E).
    destruct (calculateStageCounts_returns this belt' Hobj') as (c' & E').
    pose proof (calculateStageCounts_keys this belt c E) as K.
    pose proof (calculateStageCounts_keys this belt' c' E') as K'.
    rewrite calculateStageCounts_bags in E, E'. rewrite E, E'. f_equal.
    apply obj_ext.
    + congruence.
    + rewrite K. apply zeroCounts_NoDup.
    + intros k. rewrite (forEach_countBag_get this _ _ c k E),
        (forEach_countBag_get this _ _ c' k E').
      now rewrite (bagsInStage_perm this k _ _ P).
  - rewrite (forEach_countBag_null this _ _ Hnull).
    rewrite forEach_countBag_null; [reflexivity|].
    apply Permutation_in with (l := bags_of belt); assumption.
Qed.

Lemma stage_counts_bag_order_witness :
  let b1 := Some {| bag_id := "b1"; position := Number (Fin 10) |} in
  let b2 := Some {| bag_id := "b2"; position := Number (Fin 60) |} in
  calculateStageCounts (constructor None)
    (Some {| belt_id := "B"; bags_on_belt := BagsArray [b1; b2] |})
  = calculateStageCounts (constructor None)
      (Some {| belt_id := "B"; bags_on_belt := BagsArray [b2; b1] |}).
Proof.
  intros b1 b2. apply stage_counts_bag_order. simpl. apply perm_swap.
Defined.

(* ================================================================== *)
(** * Aggregation as a sum *)
(* ================================================================== *)

Lemma aggregate_sumBelts (this : Dashboard) (belts : list (option Belt)) :
  NoDup (map id (beltStages this)) ->
  aggregateStageCounts this (Some belts)
  = sumBelts this belts (zeroCounts (beltStages this)).
Proof.
  intros H. unfold aggregateStageCounts, getBeltStages, sumBelts.
  now apply aggregate_sum.
Qed.

Lemma sumBelts_keys (this : Dashboard) (belts : list (option Belt))
  (t t' : object) :
  sumBelts this belts t = Ok t' -> map fst t' = map fst t.
Proof.
  unfold sumBelts.
  apply (forEach_inv (fun o => map fst o = map fst t)); [|reflexivity].
  intros s x s' Hs. destruct (calculateStageCounts this x); simpl;
    [|discriminate].
  intros [= <-]. now rewrite sumCounts_keys.
Qed.

Lemma list_sum_cons (a : nat) (l : list nat) :
  list_sum (a :: l) = a + list_sum l.
Proof. reflexivity. Qed.

Lemma countOrZero_sum (y : object) :
  NoDup (map fst y) ->
  list_sum (map (countOrZero y) (map fst y)) = total y.
Proof.
  unfold total. induction y as [|[k v] y IH]; intros H; [reflexivity|].
  inversion H as [|? ? Hout Hnd]; subst. cbn [map fst snd].
  rewrite !list_sum_cons, <- (IH Hnd).
  unfold countOrZero at 1. cbn [obj_get]. rewrite String.eqb_refl.
  apply (f_equal (Nat.add v)). apply (f_equal list_sum). apply map_ext_in.
  intros k' Hk'. unfold countOrZero. cbn [obj_get].
  destruct (String.eqb_spec k k') as [->|N]; [contradiction | reflexivity].
Qed.

Lemma total_sumCounts_keys (x y : object) :
  total (sumCounts x y)
  = total x + list_sum (map (countOrZero y) (map fst x)).
Proof.
  unfold total, sumCounts.
  induction x as [|[k v] x IH]; [reflexivity|].
  cbn [map fst snd]. rewrite !list_sum_cons, IH. lia.
Qed.

Lemma total_sumCounts (x y : object) :
  map fst x = map fst y -> NoDup (map fst y) ->
  total (sumCounts x y) = total x + total y.
Proof.
  intros K H. now rewrite total_sumCounts_keys, K, countOrZero_sum.
Qed.

Lemma aggregate_total (this : Dashboard) (belts : list (option Belt)) :
  NoDup (map id (beltStages this)) ->
  countable_ids (beltStages this) ->
  Forall bags_are_objects belts ->
  exists totals,
    aggregateStageCounts this (Some belts) = Ok totals
    /\ total totals = bagsOnBelts belts.
Proof.
  intros Hnd Hids Hbelts. rewrite (aggregate_sumBelts this belts Hnd).
  assert (G : forall t,
             map fst t = map fst (zeroCounts (beltStages this)) ->
             exists totals,
               sumBelts this belts t = Ok totals
               /\ total totals = total t + bagsOnBelts belts).
  { induction Hbelts as [|belt belts Hb _ IH]; intros t Ht.
    - exists t. split; [reflexivity | unfold bagsOnBelts; simpl; lia].
    - destruct (calculateStageCounts_conservation this belt Hids Hb)
        as (c & E & T).
      pose proof (calculateStageCounts_keys this belt c E) as K.
      destruct (IH (sumCounts t c)) as (totals & E' & T').
      { now rewrite sumCounts_keys. }
      exists totals. unfold sumBelts in *. cbn [forEach]. rewrite E.
      cbn [bind]. split; [exact E'|]. rewrite T', total_sumCounts.
      + unfold bagsOnBelts. simpl. lia.
      + congruence.
      + rewrite K. apply zeroCounts_NoDup. }
  destruct (G (zeroCounts (beltStages this)) eq_refl) as (totals & E & T).
  exists totals. split; [exact E|]. now rewrite T, total_zeroCounts.
Qed.

(** X3. In a non-empty stage table with distinct ids, none of them empty or
    [__proto__], the counts [aggregateStageCounts] returns for belts whose
    bags are objects sum to the number of bags on all the belts. *)
Theorem aggregate_counts_every_bag (this : Dashboard)
  (belts : list (option Belt)) :
  NoDup (map id (beltStages this)) ->
  countable_ids (beltStages this) ->
  Forall bags_are_objects belts ->
  exists totals,
    aggregateStageCounts this (Some belts) = Ok totals
    /\ list_sum (Object_values totals) = bagsOnBelts belts.
Proof.
  intros Hnd Hids Hbelts.
  destruct (aggregate_total this belts Hnd Hids Hbelts) as (totals & E & T).
  exists totals. split; [exact E|]. now rewrite Object_values_sum.
Qed.

Lemma aggregate_counts_every_bag_witness :
  let bag q := Some {| bag_id := "b"; position := Number (Fin q) |} in
  let beltA :=
    Some {| belt_id := "A"; bags_on_belt := BagsArray [bag 10%Q; bag 30%Q] |} in
  let beltB :=
    Some {| belt_id := "B"; bags_on_belt := BagsArray [bag 120%Q] |} in
  exists totals,
    aggregateStageCounts (constructor None) (Some [beltA; None; beltB])
    = Ok totals
    /\ list_sum (Object_values totals) = 3.
Proof.
  intros bag beltA beltB.
  apply (aggregate_counts_every_bag (constructor None) [beltA; None; beltB]).
  - repeat constructor; simpl; intuition discriminate.
  - split; [discriminate|].
    intros k [<-|[<-|[<-|[<-|[]]]]]; split; discriminate.
  - repeat constructor; discriminate.
Defined.

(* ================================================================== *)
(** * Aggregation of lists put together *)
(* ================================================================== *)

Lemma countOrZero_sumCounts (x y : object) (k : string) :
  In k (map fst x) ->
  countOrZero (sumCounts x y) k = countOrZero x k + countOrZero y k.
Proof.
  intros H. unfold countOrZero at 1 2. rewrite sumCounts_get.
  destruct (In_obj_get k x H) as (c & ->). reflexivity.
Qed.

Lemma sumCounts_assoc (t x y : object) :
  map fst t = map fst x ->
  sumCounts t (sumCounts x y) = sumCounts (sumCounts t x) y.
Proof.
  intros K. unfold sumCounts at 1 3 4. rewrite map_map. apply map_ext_in.
  intros [k v] Hkv. cbn [fst snd]. f_equal.
  rewrite countOrZero_sumCounts; [lia|].
  rewrite <- K. now apply (in_map fst) in Hkv.
Qed.

Lemma sumCounts_swap (t x y : object) :
  sumCounts (sumCounts t x) y = sumCounts (sumCounts t y) x.
Proof.
  unfold sumCounts. rewrite !map_map. apply map_ext.
  intros [k v]. cbn [fst snd]. f_equal. lia.
Qed.

(** The loop from any mapping with the keys of the zero-initialised one is
    the loop from the zero-initialised mapping, added to it. *)
Lemma sumBelts_from (this : Dashboard) (belts : list (option Belt)) :
  forall t,
    map fst t = map fst (zeroCounts (beltStages this)) ->
    sumBelts this belts t
    = (t2 <- sumBelts this belts (zeroCounts (beltStages this)) ;;
       Ok (sumCounts t t2)).
Proof.
  unfold sumBelts.
  induction belts as [|belt belts IH]; intros t Ht; cbn [forEach bind].
  - now rewrite sumCounts_zero_r.
  - destruct (calculateStageCounts this belt) as [c|e] eqn:E; cbn [bind];
      [|reflexivity].
    pose proof (calculateStageCounts_keys this belt c E) as K.
    rewrite (IH (sumCounts t c)) by now rewrite sumCounts_keys.
    rewrite (IH (sumCounts (zeroCounts (beltStages this)) c))
      by now rewrite sumCounts_keys.
    destruct (forEach _ belts (zeroCounts (beltStages this))) as [t2|e];
      cbn [bind]; [|reflexivity].
    rewrite sumCounts_zero_l by exact K.
    f_equal. symmetry. apply sumCounts_assoc. congruence.
Qed.

Lemma sumBelts_app (this : Dashboard) (belts1 belts2 : list (option Belt))
  (t : object) :
  sumBelts this (belts1 ++ belts2) t
  = (t1 <- sumBelts this belts1 t ;; sumBelts this belts2 t1).
Proof. unfold sumBelts. apply forEach_app. Qed.

(** X4. In a stage table with distinct ids, the aggregate of two lists of
    belts put together is the element-wise sum of the aggregates of the two
    lists, the aggregate of no belt is the zero-initialised mapping, and the
    aggregate of one belt is its stage counts. *)
Theorem aggregate_of_concatenation (this : Dashboard) :
  NoDup (map id (beltStages this)) ->
  (forall belts1 belts2,
      aggregateStageCounts this (Some (belts1 ++ belts2))
      = (totals1 <- aggregateStageCounts this (Some belts1) ;;
         totals2 <- aggregateStageCounts this (Some belts2) ;;
         Ok (sumCounts totals1 totals2))) /\
  aggregateStageCounts this (Some []) = Ok (zeroCounts (beltStages this)) /\
  (forall belt,
      aggregateStageCounts this (Some [belt])
      = calculateStageCounts this belt).
Proof.
  intros Hnd. split; [|split].
  - intros belts1 belts2. rewrite !(aggregate_sumBelts this _ Hnd).
    rewrite sumBelts_app.
    destruct (sumBelts this belts1 (zeroCounts (beltStages this)))
      as [t1|e] eqn:E1; cbn [bind]; [|reflexivity].
    apply (sumBelts_from this belts2 t1).
    exact (sumBelts_keys this belts1 _ t1 E1).
  - reflexivity.
  - intros belt. rewrite (aggregate_sumBelts this _ Hnd).
    unfold sumBelts. cbn [forEach].
    destruct (calculateStageCounts this belt) as [c|e] eqn:E; cbn [bind];
      [|reflexivity].
    f_equal. apply sumCounts_zero_l.
    exact (calculateStageCounts_keys this belt c E).
Qed.

Lemma aggregate_of_concatenation_witness :
  let bag q := Some {| bag_id := "b"; position := Number (Fin q) |} in
  let beltA :=
    Some {| belt_id := "A"; bags_on_belt := BagsArray [bag 10%Q; bag 30%Q] |} in
  let beltB :=
    Some {| belt_id := "B"; bags_on_belt := BagsArray [bag 20%Q] |} in
  aggregateStageCounts (constructor None) (Some ([beltA] ++ [beltB; beltA]))
  = Ok (sumCounts (counts4 1 1 0 0) (counts4 2 1 0 0))
  /\ aggregateStageCounts (constructor None) (Some [beltA])
     = calculateStageCounts (constructor None) beltA.
Proof.
  intros bag beltA beltB.
  assert (Hnd : NoDup (map id (beltStages (constructor None)))).
  { repeat constructor; simpl; intuition discriminate. }
  destruct (aggregate_of_concatenation (constructor None) Hnd)
    as (Happ & _ & Hone).
  split; [|apply Hone].
  rewrite (Happ [beltA] [beltB; beltA]). reflexivity.
Defined.

(* ================================================================== *)
(** * The order of the belts *)
(* ================================================================== *)

Lemma sumBelts_perm (this : Dashboard) (belts belts' : list (option Belt)) :
  Permutation belts belts' ->
  forall t, sumBelts this belts t = sumBelts this belts' t.
Proof.
  unfold sumBelts.
  induction 1 as [|x l l' _ IH|x y l|l l' l'' _ IH1 _ IH2]; intros t.
  - reflexivity.
  - cbn [forEach]. destruct (calculateStageCounts this x); cbn [bind];
      [apply IH | reflexivity].
  - cbn [forEach].
    destruct (calculateStageCounts this x) as [cx|[]],
             (calculateStageCounts this y) as [cy|[]]; cbn [bind];
      try reflexivity.
    now rewrite sumCounts_swap.
  - now rewrite IH1.
Qed.

(** X5. In a stage table with distinct ids the order of the belts does not
    matter: two lists of belts that are permutations of each other get the
    same result from [aggregateStageCounts]. *)
Theorem aggregate_belt_order (this : Dashboard)
  (belts belts' : list (option Belt)) :
  NoDup (map id (beltStages this)) ->
  Permutation belts belts' ->
  aggregateStageCounts this (Some belts)
  = aggregateStageCounts this (Some belts').
Proof.
  intros Hnd P. rewrite !(aggregate_sumBelts this _ Hnd).
  now apply sumBelts_perm.
Qed.

Lemma aggregate_belt_order_witness :
  let bag q := Some {| bag_id := "b"; position := Number (Fin q) |} in
  let beltA :=
    Some {| belt_id := "A"; bags_on_belt := BagsArray [bag 10%Q; bag 30%Q] |} in
  let beltB :=
    Some {| belt_id := "B"; bags_on_belt := BagsArray [bag 80%Q] |} in
  aggregateStageCounts (constructor None) (Some [beltA; beltB])
  = aggregateStageCounts (constructor None) (Some [beltB; beltA]).
Proof.
  intros bag beltA beltB. apply aggregate_belt_order.
  - repeat constructor; simpl; intuition discriminate.
  - apply perm_swap.
Defined.

(* ================================================================== *)
(** * What the stage functions read of the table *)
(* ================================================================== *)

Lemma cons_inv {A : Type} (a a' : A) (l l' : list A) :
  a :: l = a' :: l' -> a = a' /\ l = l'.
Proof. intros [= -> ->]. split; reflexivity. Qed.

Lemma stageContains_bounds (p : value) (s s' : Stage) :
  stageBounds s = stageBounds s' -> stageContains p s = stageContains p s'.
Proof.
  unfold stageBounds, stageContains. intros [= _ -> ->]. reflexivity.
Qed.

Lemma find_bounds (p : value) (l l' : list Stage) :
  map stageBounds l = map stageBounds l' ->
  option_map id (find (stageContains p) l)
  = option_map id (find (stageContains p) l').
Proof.
  revert l'. induction l as [|s l IH]; intros [|s' l']; simpl;
    try discriminate; [reflexivity|].
  intros H. apply cons_inv in H. destruct H as [Hs Hl].
  rewrite (stageContains_bounds p s s') by exact Hs.
  destruct (stageContains p s'); simpl; [|now apply IH].
  unfold stageBounds in Hs. congruence.
Qed.

Lemma last_bounds (l l' : list Stage) (d d' : Stage) :
  map stageBounds l = map stageBounds l' -> id d = id d' ->
  id (last l d) = id (last l' d').
Proof.
  revert l' d d'. induction l as [|s l IH]; intros [|s' l'] d d'; simpl;
    try discriminate; [tauto|].
  intros H Hd. apply cons_inv in H. destruct H as [Hs Hl].
  destruct l as [|x l], l' as [|x' l']; try discriminate.
  - unfold stageBounds in Hs. injection Hs as Hs _ _. exact Hs.
  - apply (IH (x' :: l') d d'); [exact Hl | assumption].
Qed.

Lemma ids_of_bounds (l l' : list Stage) :
  map stageBounds l = map stageBounds l' -> map id l = map id l'.
Proof.
  intros H. apply (f_equal (map (fun b => fst (fst b)))) in H.
  now rewrite !map_map in H.
Qed.

Lemma stage_of_bounds (l l' : list Stage) (p : value) :
  map stageBounds l = map stageBounds l' ->
  getStageForPosition (withStages l) p = getStageForPosition (withStages l') p.
Proof.
  intros H. unfold getStageForPosition, getBeltStages. cbn [beltStages withStages].
  pose proof (find_bounds p l l' H) as F.
  destruct l as [|s l], l' as [|s' l']; try discriminate; [reflexivity|].
  destruct (find (stageContains p) (s :: l)) as [x|],
           (find (stageContains p) (s' :: l')) as [x'|];
    simpl in F; try discriminate.
  - congruence.
  - f_equal. apply last_bounds; [exact H|].
    apply cons_inv in H. destruct H as [Hs _].
    unfold stageBounds in Hs. congruence.
Qed.

Lemma zeroCounts_of_ids (l l' : list Stage) :
  map id l = map id l' -> zeroCounts l = zeroCounts l'.
Proof.
  unfold zeroCounts. generalize (@nil (string * nat)) as o.
  revert l'. induction l as [|s l IH]; intros [|s' l'] o; simpl;
    try discriminate; [reflexivity|].
  intros [= -> Hl]. now apply IH.
Qed.

Lemma fold_addStage_of_ids (counts : object) (l l' : list Stage) :
  map id l = map id l' ->
  forall totals,
    fold_left (addStage counts) l totals = fold_left (addStage counts) l' totals.
Proof.
  revert l'. induction l as [|s l IH]; intros [|s' l']; simpl;
    try discriminate; [reflexivity|].
  intros [= Hs Hl] totals. unfold addStage at 2 4. rewrite Hs. now apply IH.
Qed.

Lemma forEach_ext {A S : Type} (f g : S -> A -> result S) (l : list A) :
  (forall s x, f s x = g s x) -> forall s, forEach f l s = forEach g l s.
Proof.
  intros H. induction l as [|x l IH]; intros s; simpl; [reflexivity|].
  rewrite H. destruct (g s x); simpl; [apply IH | reflexivity].
Qed.

Lemma dashboard_stages (this : Dashboard) (p : value) :
  getStageForPosition this p = getStageForPosition (withStages (beltStages this)) p.
Proof. reflexivity. Qed.

Lemma counts_of_bounds (this that : Dashboard) (belt : option Belt) :
  map stageBounds (beltStages this) = map stageBounds (beltStages that) ->
  calculateStageCounts this belt = calculateStageCounts that belt.
Proof.
  intros H. rewrite !calculateStageCounts_bags.
  rewrite (zeroCounts_of_ids _ _ (ids_of_bounds _ _ H)).
  apply forEach_ext. intros counts bag. unfold countBag.
  destruct bag as [b|]; [|reflexivity].
  rewrite (dashboard_stages this), (dashboard_stages that).
  now rewrite (stage_of_bounds _ _ (position b) H).
Qed.

(** X6. The stage functions read of a stage only its id and its bounds: two
    dashboards whose tables agree on these give every position the same
    stage, every belt the same counts and every list of belts the same
    aggregate, whatever labels, descriptions and icons say. *)
Theorem stage_functions_read_bounds (this that : Dashboard) :
  map stageBounds (beltStages this) = map stageBounds (beltStages that) ->
  (forall p, getStageForPosition this p = getStageForPosition that p) /\
  (forall belt, calculateStageCounts this belt = calculateStageCounts that belt) /\
  (forall belts,
      aggregateStageCounts this belts = aggregateStageCounts that belts).
Proof.
  intros H. split; [|split].
  - intros p. rewrite (dashboard_stages this), (dashboard_stages that).
    now apply stage_of_bounds.
  - intros belt. now apply counts_of_bounds.
  - intros belts. unfold aggregateStageCounts, getBeltStages.
    pose proof (ids_of_bounds _ _ H) as Hid.
    rewrite (zeroCounts_of_ids _ _ Hid).
    destruct belts as [belts|]; [|reflexivity].
    apply forEach_ext. intros totals belt. unfold addBeltCounts, getBeltStages.
    rewrite (counts_of_bounds this that belt H).
    destruct (calculateStageCounts that belt); simpl; [|reflexivity].
    now rewrite (fold_addStage_of_ids _ _ _ Hid).
Qed.

Lemma stage_functions_read_bounds_witness :
  let relabelled :=
    withStages [plainStage "checking" 0 25; plainStage "sorting" 25 50;
                plainStage "security" 50 75; plainStage "boarding" 75 100] in
  getStageForPosition (constructor None) (Number (Fin 42))
  = getStageForPosition relabelled (Number (Fin 42)).
Proof.
  intros relabelled.
  apply (proj1 (stage_functions_read_bounds (constructor None) relabelled
                  eq_refl)).
Defined.

(* ================================================================== *)
(** * The two copies of the stage functions *)
(* ================================================================== *)

Lemma portal_stage (this : StaffPortal.Portal) (p : value) :
  StaffPortal.getStageForPosition this p
  = getStageForPosition (withStages (StaffPortal.beltStages this)) p.
Proof. reflexivity. Qed.

Lemma portal_counts (this : StaffPortal.Portal) (belt : option Belt) :
  StaffPortal.calculateStageCounts this belt
  = calculateStageCounts (withStages (StaffPortal.beltStages this)) belt.
Proof.
  unfold StaffPortal.calculateStageCounts, calculateStageCounts.
  destruct belt as [b|]; [|reflexivity].
  destruct (bags_on_belt b); [reflexivity|].
  apply forEach_ext. intros counts bag. reflexivity.
Qed.

(** X7. The staff portal and the dashboard agree: for every role and
    configuration, every position gets the same stage, every belt the same
    stage counts, every mapping the same dominant stage and every pair of
    load and count the same flow state from the two copies of the stage
    functions, although the two stage tables describe the stages in
    different words. *)
Theorem portal_agrees_with_dashboard :
  StaffPortal.defaultBeltStages <> AirportDashboard.defaultBeltStages /\
  (forall role cfg p,
      StaffPortal.getStageForPosition (StaffPortal.constructor role) p
      = getStageForPosition (constructor cfg) p) /\
  (forall role cfg belt,
      StaffPortal.calculateStageCounts (StaffPortal.constructor role) belt
      = calculateStageCounts (constructor cfg) belt) /\
  (forall counts,
      StaffPortal.getDominantStage counts = getDominantStage counts) /\
  (forall loadPercent count,
      StaffPortal.getStageFlowState loadPercent count
      = getStageFlowState loadPercent count).
Proof.
  split; [discriminate|].
  split; [|split; [|split; reflexivity]].
  - intros role cfg p. rewrite portal_stage, (dashboard_stages (constructor cfg)).
    now apply stage_of_bounds.
  - intros role cfg belt. rewrite portal_counts.
    now apply counts_of_bounds.
Qed.

(* ================================================================== *)
(** * The active stage of the timeline *)
(* ================================================================== *)

Lemma filter_eqb_absent (d : string) (l : list string) :
  ~ In d l -> filter (String.eqb d) l = [].
Proof.
  induction l as [|x l IH]; [reflexivity|]. cbn [filter In]. intros H.
  destruct (String.eqb_spec d x) as [->|N]; [tauto|]. apply IH. tauto.
Qed.

Lemma filter_eqb_NoDup (d : string) (l : list string) :
  NoDup l -> In d l -> List.length (filter (String.eqb d) l) = 1.
Proof.
  induction 1 as [|x l Hout Hnd IH]; [intros []|].
  cbn [filter]. destruct (String.eqb_spec d x) as [->|N].
  - intros _. now rewrite (filter_eqb_absent x l Hout).
  - intros [H|H]; [congruence | now apply IH].
Qed.

Lemma getDominantStage_key (o : object) (d : string) :
  getDominantStage (Some o) = Some d -> In d (map fst o).
Proof.
  intros H. destruct o as [|kv o]; [discriminate|].
  destruct (getDominantStage_first_maximum (kv :: o)) as (i & key & E & M).
  { rewrite Object_entries_nil. discriminate. }
  rewrite H in E. injection E as <-. destruct M as (c & Hn & _).
  apply nth_error_In in Hn. apply (in_map fst) in Hn.
  apply Permutation_in with (l := map fst (Object_entries (kv :: o))).
  - apply Permutation_map. apply Object_entries_perm.
  - exact Hn.
Qed.

(** X8. In a non-empty stage table with distinct ids, none of them
    [__proto__], the timeline of a belt whose bags are objects marks exactly
    one stage active: the dominant stage of the counts of the belt. *)
Theorem timeline_one_active_stage (this : Dashboard) (belt : option Belt) :
  beltStages this <> [] ->
  distinct_ids (beltStages this) ->
  bags_are_objects belt ->
  exists marks counts dominant,
    stageTimelineActive this belt = Ok marks
    /\ calculateStageCounts this belt = Ok counts
    /\ getDominantStage (Some counts) = Some dominant
    /\ map fst marks = map id (beltStages this)
    /\ (forall k, In (k, true) marks <-> k = dominant)
    /\ List.length (filter snd marks) = 1.
Proof.
  intros Hne Hids Hbags.
  destruct (calculateStageCounts_returns this belt Hbags) as (counts & E).
  pose proof (calculateStageCounts_keys this belt counts E) as K.
  rewrite (zeroCounts_ids _ Hids) in K.
  destruct (getDominantStage (Some counts)) as [d|] eqn:D.
  2:{ unfold getDominantStage in D.
      destruct (Object_entries counts) eqn:O; [|discriminate].
      pose proof (proj1 (Object_entries_nil counts) O) as O'.
      rewrite O' in K.
      destruct (beltStages this); [congruence | discriminate]. }
  pose proof (getDominantStage_key counts d D) as Hd. rewrite K in Hd.
  exists (map (fun stage => (id stage, String.eqb d (id stage)))
            (beltStages this)), counts, d.
  split; [|split; [exact E|split; [exact D|split; [|split]]]].
  - unfold stageTimelineActive, getBeltStages.
    destruct (beltStages this) as [|s l]; [congruence|].
    rewrite E. cbn [bind]. now rewrite D.
  - now rewrite map_map.
  - intros k. rewrite in_map_iff. split.
    + intros (s & [= <- H] & _). symmetry. now apply String.eqb_eq.
    + intros ->. apply in_map_iff in Hd. destruct Hd as (s & <- & Hs).
      exists s. split; [|exact Hs]. now rewrite String.eqb_refl.
  - rewrite <- (filter_eqb_NoDup d (map id (beltStages this)) (proj1 Hids) Hd).
    generalize (beltStages this) as l. induction l as [|s l IH];
      [reflexivity|].
    cbn [map filter snd]. destruct (String.eqb d (id s)); simpl; now rewrite IH.
Qed.

Lemma timeline_one_active_stage_witness :
  let bag q := Some {| bag_id := "b"; position := Number (Fin q) |} in
  let belt :=
    Some {| belt_id := "A";
            bags_on_belt := BagsArray [bag 10%Q; bag 60%Q; bag 70%Q] |} in
  exists marks counts dominant,
    stageTimelineActive (constructor None) belt = Ok marks
    /\ calculateStageCounts (constructor None) belt = Ok counts
    /\ getDominantStage (Some counts) = Some dominant
    /\ map fst marks = map id (beltStages (constructor None))
    /\ (forall k, In (k, true) marks <-> k = dominant)
    /\ List.length (filter snd marks) = 1.
Proof.
  intros bag belt. apply timeline_one_active_stage.
  - discriminate.
  - split.
    + repeat constructor; simpl; intuition discriminate.
    + intros k [<-|[<-|[<-|[<-|[]]]]]; discriminate.
  - repeat constructor; discriminate.
Defined.

(* ================================================================== *)
(** * The viewer's scopes *)
(* ================================================================== *)

Lemma alertInScope_all (this that : Dashboard) (alert : Alert) :
  (forall tag, tag <> "all"%string ->
               (In tag (alertScopes this) <-> In tag (alertScopes that))) ->
  alertInScope this alert = alertInScope that alert.
Proof.
  intros H. unfold alertInScope.
  destruct (scope alert) as [| |[|t ts]]; try reflexivity.
  generalize (t :: ts) as tags. induction tags as [|tag tags IH];
    [reflexivity|].
  cbn [existsb]. rewrite IH. f_equal.
  destruct (String.eqb_spec tag "all") as [->|N]; [now rewrite !orb_true_r|].
  rewrite !orb_false_r.
  destruct (includes (alertScopes this) tag) eqn:E1,
           (includes (alertScopes that) tag) eqn:E2; try reflexivity.
  - apply includes_iff in E1. apply (H tag N) in E1.
    apply includes_iff in E1. congruence.
  - apply includes_iff in E2. apply (H tag N) in E2.
    apply includes_iff in E2. congruence.
Qed.

Lemma filterAlertsByScope_filter (this : Dashboard) (alerts : list Alert) :
  filterAlertsByScope this (Some alerts) = filter (alertInScope this) alerts.
Proof. destruct alerts; reflexivity. Qed.

(** X9. The scope ["all"] among a viewer's scopes changes nothing: two
    viewers whose scopes differ at most by ["all"] get the same alerts from
    the scope filter.  In particular the viewer of the default
    configuration gets what a viewer without any scope gets. *)
Theorem viewer_scope_all_is_inert (this that : Dashboard)
  (alerts : option (list Alert)) :
  (forall tag, tag <> "all"%string ->
               (In tag (alertScopes this) <-> In tag (alertScopes that))) ->
  filterAlertsByScope this alerts = filterAlertsByScope that alerts.
Proof.
  intros H. destruct alerts as [alerts|]; [|reflexivity].
  rewrite !filterAlertsByScope_filter. apply filter_ext.
  intros alert. now apply alertInScope_all.
Qed.

Lemma viewer_scope_all_is_inert_witness :
  let alerts :=
    Some [ {| alert_id := "a1"; alert_type := "Jam"; priority := "High";
              message := "Belt jam"; timestamp := "10:00";
              scope := ScopeArray ["terminalA"%string] |};
           {| alert_id := "a2"; alert_type := "Delay"; priority := "Low";
              message := "Late bags"; timestamp := "10:05";
              scope := ScopeArray ["all"%string] |} ] in
  filterAlertsByScope (constructor None) alerts
  = filterAlertsByScope
      {| alertScopes := []; beltStages := defaultBeltStages |} alerts.
Proof.
  intros alerts. apply viewer_scope_all_is_inert.
  intros tag N. simpl. intuition congruence.
Defined.

(** X10. The scope filter grows with the viewer's scopes: when every scope
    of one viewer is a scope of another, the alerts the first viewer gets
    are, in the same order, among those the second gets; and filtering the
    result again for the same viewer changes nothing. *)
Theorem scope_filter_monotone (this that : Dashboard) (alerts : list Alert) :
  incl (alertScopes this) (alertScopes that) ->
  filterAlertsByScope this (Some alerts)
  = filter (alertInScope this) (filterAlertsByScope that (Some alerts))
  /\ filterAlertsByScope this (Some (filterAlertsByScope this (Some alerts)))
     = filterAlertsByScope this (Some alerts).
Proof.
  intros H. rewrite !filterAlertsByScope_filter. split.
  - induction alerts as [|a l IH]; [reflexivity|]. cbn [filter].
    destruct (alertInScope this a) eqn:E.
    + assert (E' : alertInScope that a = true).
      { apply alertInScope_iff. apply alertInScope_iff in E.
        destruct E as [E|[E|[E|(tags & tag & E & Hin & Ht)]]];
          [now left | now right; left | now right; right; left|].
        right; right; right. exists tags, tag.
        split; [exact E|]. split; [exact Hin|].
        destruct Ht as [Ht|Ht]; [now left | right; now apply H]. }
      rewrite E'. cbn [filter]. rewrite E. now f_equal.
    + destruct (alertInScope that a); [cbn [filter]; rewrite E|]; exact IH.
  - induction alerts as [|a l IH]; [reflexivity|]. cbn [filter].
    destruct (alertInScope this a) eqn:E; [|exact IH].
    cbn [filter]. rewrite E. now f_equal.
Qed.

Lemma scope_filter_monotone_witness :
  let alerts :=
    [ {| alert_id := "a1"; alert_type := "Jam"; priority := "High";
         message := "Belt jam"; timestamp := "10:00";
         scope := ScopeArray ["terminalA"%string] |};
      {| alert_id := "a2"; alert_type := "Delay"; priority := "Low";
         message := "Late bags"; timestamp := "10:05";
         scope := ScopeArray ["terminalB"%string] |} ] in
  let viewer tags :=
    constructor (Some {| config_alertScopes := ScopeArray tags |}) in
  filterAlertsByScope (viewer ["terminalA"%string]) (Some alerts)
  = filter (alertInScope (viewer ["terminalA"%string]))
      (filterAlertsByScope (viewer ["terminalB"; "terminalA"]%string)
         (Some alerts)).
Proof.
  intros alerts viewer.
  apply (proj1 (scope_filter_monotone (viewer ["terminalA"%string])
                  (viewer ["terminalB"; "terminalA"]%string) alerts
                  ltac:(intros x [<-|[]]; right; left; reflexivity))).
Defined.

(* ================================================================== *)
(** * Facts of binary64 arithmetic *)
(* ================================================================== *)

Module JSArithFacts.

Import JSArith.

Lemma digits2_pos_iter_xO (p k : positive) :
  digits2_pos (Pos.iter xO p k) = (digits2_pos p + k)%positive.
Proof.
  revert p. induction k using Pos.peano_ind; intros p.
  - simpl. lia.
  - rewrite Pos.iter_succ. simpl. rewrite IHk. lia.
Qed.

Lemma digits2_pos_bound (p : positive) :
  (Zpos p < 2 ^ Zpos (digits2_pos p))%Z.
Proof.
  induction p as [p IH|p IH|]; simpl digits2_pos.
  - rewrite Pos2Z.inj_succ, Z.pow_succ_r by lia. lia.
  - rewrite Pos2Z.inj_succ, Z.pow_succ_r by lia. lia.
  - reflexivity.
Qed.

Lemma digits2_pos_lower (p : positive) :
  (2 ^ (Zpos (digits2_pos p) - 1) <= Zpos p)%Z.
Proof.
  induction p as [p IH|p IH|]; simpl digits2_pos.
  - rewrite Pos2Z.inj_succ.
    replace (Z.succ (Zpos (digits2_pos p)) - 1)%Z
      with (Z.succ (Zpos (digits2_pos p) - 1))%Z by lia.
    rewrite Z.pow_succ_r by lia. lia.
  - rewrite Pos2Z.inj_succ.
    replace (Z.succ (Zpos (digits2_pos p)) - 1)%Z
      with (Z.succ (Zpos (digits2_pos p) - 1))%Z by lia.
    rewrite Z.pow_succ_r by lia. lia.
  - reflexivity.
Qed.

Lemma digits2_pos_le_53 (p : positive) :
  (Zpos p < 2 ^ 53)%Z -> (Zpos (digits2_pos p) <= 53)%Z.
Proof.
  intros H. pose proof (digits2_pos_lower p) as L.
  destruct (Z.le_gt_cases (Zpos (digits2_pos p)) 53) as [G|G]; [exact G|].
  exfalso. assert (2 ^ 53 <= 2 ^ (Zpos (digits2_pos p) - 1))%Z.
  { apply Z.pow_le_mono_r; lia. }
  lia.
Qed.

(** A mantissa of 53 bits with an exponent in range is left as it is by
    rounding. *)
Lemma binary_round_aux_canonical (m : positive) (e : Z) :
  Zpos (digits2_pos m) = 53%Z -> (-1074 <= e <= 971)%Z ->
  binary_round_aux prec emax false (Zpos m) e loc_Exact
  = S754_finite false m e.
Proof.
  intros D He. unfold binary_round_aux, shr_fexp, shr_record_of_loc.
  cbn [Zdigits2]. rewrite D.
  assert (F : (fexp prec emax (53 + e) - e = 0)%Z).
  { unfold fexp, emin, prec, emax. lia. }
  rewrite F. cbn [shr shr_m loc_of_shr_record round_nearest_even Zdigits2].
  rewrite D, F. cbn [shr shr_m].
  unfold prec, emax. destruct (Z.leb_spec e (1024 - 53)); [reflexivity | lia].
Qed.

(** A positive natural number below 2^53 is a finite number. *)
Lemma ofNat_finite (n : nat) :
  0 < n -> (Z.of_nat n < 2 ^ 53)%Z ->
  exists m e, ofNat n = S754_finite false m e.
Proof.
  intros Hpos Hlt. unfold ofNat.
  destruct (Z.of_nat n) as [|p|p] eqn:E; [lia | | lia].
  cbn [binary_normalize]. unfold binary_round.
  pose proof (digits2_pos_le_53 p Hlt) as D.
  assert (F : fexp prec emax (Zpos (digits2_pos p) + 0)
              = (Zpos (digits2_pos p) - 53)%Z).
  { unfold fexp, emin, prec, emax. lia. }
  rewrite F. unfold shl_align.
  destruct (Zpos (digits2_pos p) - 53 - 0)%Z as [|k|k] eqn:K; [| lia |].
  - rewrite binary_round_aux_canonical; [eauto | lia | lia].
  - rewrite binary_round_aux_canonical; [eauto | | lia].
    rewrite digits2_pos_iter_xO. lia.
Qed.

(** Rounding a mantissa that is not negative never gives [NaN]. *)
Lemma shr_1_nonneg (mrs : shr_record) :
  (0 <= shr_m mrs)%Z -> (0 <= shr_m (shr_1 mrs))%Z.
Proof.
  destruct mrs as [m r s]. cbn [shr_m]. intros H.
  destruct m as [|[p|p|]|p]; cbn; lia.
Qed.

Lemma iter_pos_nonneg (n : positive) (mrs : shr_record) :
  (0 <= shr_m mrs)%Z -> (0 <= shr_m (iter_pos shr_1 n mrs))%Z.
Proof.
  revert mrs. induction n as [n IH|n IH|]; intros mrs H; cbn [iter_pos].
  - apply IH, IH. now apply shr_1_nonneg.
  - now apply IH, IH.
  - now apply shr_1_nonneg.
Qed.

Lemma shr_fexp_nonneg (m e : Z) (l : location) :
  (0 <= m)%Z -> (0 <= shr_m (fst (shr_fexp prec emax m e l)))%Z.
Proof.
  intros H. unfold shr_fexp, shr.
  assert (H0 : (0 <= shr_m (shr_record_of_loc m l))%Z).
  { destruct l as [|[| |]]; exact H. }
  destruct (fexp prec emax (Zdigits2 m + e) - e)%Z; cbn [fst];
    [exact H0 | now apply iter_pos_nonneg | exact H0].
Qed.

Lemma binary_round_aux_not_nan (s : bool) (m e : Z) (l : location) :
  (0 <= m)%Z -> binary_round_aux prec emax s m e l <> S754_nan.
Proof.
  intros H. unfold binary_round_aux.
  pose proof (shr_fexp_nonneg m e l H) as H1.
  destruct (shr_fexp prec emax m e l) as [mrs' e'] eqn:E1. cbn [fst] in H1.
  assert (H2 : (0 <= round_nearest_even (shr_m mrs')
                       (loc_of_shr_record mrs'))%Z).
  { unfold round_nearest_even.
    destruct (loc_of_shr_record mrs') as [|[| |]];
      try destruct (Z.even (shr_m mrs')); lia. }
  pose proof (shr_fexp_nonneg _ e' loc_Exact H2) as H3.
  destruct (shr_fexp prec emax _ e' loc_Exact) as [mrs'' e''].
  cbn [fst] in H3. destruct (shr_m mrs'') as [|p|p]; [discriminate| |lia].
  destruct (e'' <=? emax - prec)%Z; discriminate.
Qed.

Lemma div_finite_not_nan (s s' : bool) (m m' : positive) (e e' : Z) :
  div (S754_finite s m e) (S754_finite s' m' e') <> S754_nan.
Proof.
  unfold div. cbn [SFdiv]. unfold SFdiv_core_binary.
  set (x := match _ with Zpos _ => _ | Z0 => _ | Zneg _ => _ end).
  assert (Hx : (0 <= x)%Z).
  { subst x. destruct (_ - _ - _)%Z; [lia | | lia].
    rewrite Z.shiftl_mul_pow2 by lia. apply Z.mul_nonneg_nonneg; [lia|].
    apply Z.pow_nonneg. lia. }
  pose proof (Z.div_pos x (Zpos m') Hx ltac:(lia)) as Hq.
  unfold Z.div in Hq. destruct (Z.div_eucl x (Zpos m')) as [q r].
  cbn [fst] in Hq. now apply binary_round_aux_not_nan.
Qed.

Lemma mul_not_nan (x : spec_float) (s : bool) (m : positive) (e : Z) :
  x <> S754_nan -> mul x (S754_finite s m e) <> S754_nan.
Proof.
  intros Hx. unfold mul. destruct x as [sx|sx| |sx mx ex]; cbn [SFmul];
    try discriminate; [congruence|].
  apply binary_round_aux_not_nan. lia.
Qed.

Lemma hundred : ofNat 100 = S754_finite false 7036874417766400 (-46).
Proof. reflexivity. Qed.

(** The percentage of a count in a positive total is a number. *)
Lemma percentage_not_nan (count total : nat) :
  0 < total -> (Z.of_nat count < 2 ^ 53)%Z -> (Z.of_nat total < 2 ^ 53)%Z ->
  percentage (ofNat count) (ofNat total) <> S754_nan.
Proof.
  intros Ht Hc Htl. unfold percentage. rewrite hundred. apply mul_not_nan.
  destruct (ofNat_finite total Ht Htl) as (m' & e' & ->).
  destruct count as [|c].
  - discriminate.
  - destruct (ofNat_finite (S c) ltac:(lia) Hc) as (m & e & ->).
    apply div_finite_not_nan.
Qed.

(** Nothing of a positive total is 0 percent. *)
Lemma percentage_zero (total : nat) :
  0 < total -> (Z.of_nat total < 2 ^ 53)%Z ->
  percentage (ofNat 0) (ofNat total) = S754_zero false.
Proof.
  intros Ht Htl. unfold percentage. rewrite hundred.
  destruct (ofNat_finite total Ht Htl) as (m' & e' & ->). reflexivity.
Qed.

(** A finite number divided by itself is 1, so all of a positive total is
    100 percent. *)
Lemma div_self (m : positive) (e : Z) :
  div (S754_finite false m e) (S754_finite false m e)
  = S754_finite false 4503599627370496 (-52).
Proof.
  unfold div. cbn [SFdiv]. unfold SFdiv_core_binary.
  replace (Zdigits2 (Zpos m) + e - (Zdigits2 (Zpos m) + e))%Z with 0%Z by lia.
  replace (e - e)%Z with 0%Z by lia.
  change (Z.min (fexp prec emax 0) 0) with (-53)%Z.
  change (0 - -53)%Z with 53%Z. cbv beta iota zeta.
  assert (Q : Z.div_eucl (Z.shiftl (Zpos m) 53) (Zpos m)
              = (9007199254740992, 0)%Z).
  { rewrite Z.shiftl_mul_pow2 by lia.
    pose proof (Z.div_eucl_eq (Zpos m * 2 ^ 53) (Zpos m) ltac:(lia)) as Heq.
    pose proof (Z.mod_pos_bound (Zpos m * 2 ^ 53) (Zpos m) ltac:(lia)) as Hm.
    unfold Z.modulo in Hm.
    destruct (Z.div_eucl (Zpos m * 2 ^ 53) (Zpos m)) as [q r].
    assert (Hr : r = 0%Z).
    { assert (Zpos m * (2 ^ 53 - q) = r)%Z by lia.
      destruct (Z.eq_dec (2 ^ 53 - q) 0) as [Z0|NZ]; [lia|].
      assert (Zpos m <= Z.abs r)%Z; [|lia].
      subst r. rewrite Z.abs_mul.
      assert (1 <= Z.abs (2 ^ 53 - q))%Z by lia. nia. }
    subst r. f_equal. change (2 ^ 53)%Z with 9007199254740992%Z in *. nia. }
  rewrite Q. unfold new_location.
  destruct (Z.even (Zpos m)); reflexivity.
Qed.

Lemma percentage_all (total : nat) :
  0 < total -> (Z.of_nat total < 2 ^ 53)%Z ->
  percentage (ofNat total) (ofNat total) = ofNat 100.
Proof.
  intros Ht Htl. unfold percentage.
  destruct (ofNat_finite total Ht Htl) as (m & e & ->).
  rewrite div_self. reflexivity.
Qed.

End JSArithFacts.

(* ================================================================== *)
(** * The timeline of a belt *)
(* ================================================================== *)

Lemma strict_eq_zero_count (c : nat) :
  strict_eq_zero (Number (Fin (inject_Z (Z.of_nat c))))
  = Nat.eqb c 0.
Proof.
  cbn [strict_eq_zero]. destruct c as [|c]; [reflexivity|].
  destruct (Qeq_bool (inject_Z (Z.of_nat (S c))) 0) eqn:E; [|reflexivity].
  apply Qeq_bool_iff in E. unfold Qeq in E. simpl in E. lia.
Qed.

Lemma flow_state_not_idle (loadPercent count : value) :
  strict_eq_zero count = false ->
  getStageFlowState loadPercent count <> "Idle"%string.
Proof.
  intros H. unfold getStageFlowState. rewrite H.
  destruct (js_ge (ToNumber loadPercent) (Fin 60)); [discriminate|].
  destruct (js_ge (ToNumber loadPercent) (Fin 30)); discriminate.
Qed.

Lemma bagCount_bags_of (belt : option Belt) :
  match belt with
  | Some b => match bags_on_belt b with
              | BagsArray bags => List.length bags
              | BagsNotArray => 0
              end
  | None => 0
  end = List.length (bags_of belt).
Proof.
  unfold bags_of. destruct belt as [b|]; [destruct (bags_on_belt b)|];
    reflexivity.
Qed.

(** X11. In a non-empty stage table with distinct ids, none of them
    [__proto__], the timeline of a belt whose bags are objects (fewer than
    2^53 of them) has one entry for each stage, in table order.  The count
    of a stage is the number of bags [getStageForPosition] puts into it,
    except that a stage whose id is the empty string counts 0 whatever it
    holds.  A stage with count 0 is ["Idle"] at 0 percent, a stage with
    another count is never ["Idle"], and a stage whose count is the number
    of bags of the belt (and not 0) is ["Congested"] at 100 percent.  So
    every stage of a belt without bags is ["Idle"]. *)
Theorem timeline_flow_states (this : Dashboard) (belt : option Belt) :
  beltStages this <> [] ->
  distinct_ids (beltStages this) ->
  bags_are_objects belt ->
  (Z.of_nat (List.length (bags_of belt)) < 2 ^ 53)%Z ->
  exists counts timeline,
    calculateStageCounts this belt = Ok counts
    /\ generateStageTimeline this belt = Ok timeline
    /\ map timeline_id timeline = map id (beltStages this)
    /\ forall entry,
         In entry timeline ->
         exists c,
           obj_get (timeline_id entry) counts = Some c
           /\ c = (if String.eqb (timeline_id entry) "" then 0
                   else bagsInStage this (timeline_id entry) (bags_of belt))
           /\ (c = 0 ->
               flowState entry = "Idle"%string /\ loadPercent entry = Fin 0)
           /\ (c <> 0 -> flowState entry <> "Idle"%string)
           /\ (c <> 0 -> c = List.length (bags_of belt) ->
               flowState entry = "Congested"%string
               /\ loadPercent entry = Fin 100).
Proof.
  intros Hne Hids Hbags Hlt.
  destruct (calculateStageCounts_returns this belt Hbags) as (counts & E).
  pose proof (calculateStageCounts_keys this belt counts E) as K.
  rewrite (zeroCounts_ids _ Hids) in K.
  unfold generateStageTimeline, getBeltStages. rewrite E. cbn [bind].
  rewrite bagCount_bags_of.
  destruct (beltStages this) as [|s0 l0] eqn:Es; [congruence|].
  rewrite <- Es in *. clear Es s0 l0.
  eexists counts, _. split; [reflexivity|]. split; [reflexivity|].
  split; [now rewrite map_map|].
  intros entry Hin. apply in_map_iff in Hin. destruct Hin as (s & <- & Hs).
  cbn [timeline_id flowState loadPercent].
  assert (Hk : In (id s) (map fst counts)).
  { rewrite K. now apply in_map. }
  destruct (In_obj_get _ _ Hk) as (c & Hc). exists c. rewrite Hc.
  split; [reflexivity|]. split; [|split; [|split]].
  - pose proof E as E'. rewrite calculateStageCounts_bags in E'.
    rewrite (forEach_countBag_get this (bags_of belt) _ counts (id s) E') in Hc.
    rewrite zeroCounts_get_Some in Hc.
    + cbn [option_map] in Hc. injection Hc as <-. reflexivity.
    + apply zeroCounts_has_id; [now apply in_map|].
      apply (proj2 Hids). now apply in_map.
  - intros ->. rewrite JSArithFacts.percentage_zero; [split; reflexivity | lia | lia].
  - intros Hnz. apply flow_state_not_idle. rewrite strict_eq_zero_count.
    now apply Nat.eqb_neq.
  - intros Hnz ->.
    replace (Nat.max 1 (List.length (bags_of belt)))
      with (List.length (bags_of belt)) by lia.
    rewrite JSArithFacts.percentage_all by lia.
    unfold getStageFlowState. rewrite strict_eq_zero_count.
    apply Nat.eqb_neq in Hnz. rewrite Hnz. split; reflexivity.
Qed.

Lemma timeline_flow_states_witness :
  let bag q := Some {| bag_id := "b"; position := Number (Fin q) |} in
  let belt :=
    Some {| belt_id := "A";
            bags_on_belt := BagsArray [bag 10%Q; bag 60%Q; bag 70%Q] |} in
  generateStageTimeline (constructor None) belt
  = Ok [ {| timeline_id := "checking"; loadPercent := Fin 33;
            flowState := "Flowing"; isActive := false |};
         {| timeline_id := "sorting"; loadPercent := Fin 0;
            flowState := "Idle"; isActive := false |};
         {| timeline_id := "security"; loadPercent := Fin 67;
            flowState := "Congested"; isActive := true |};
         {| timeline_id := "boarding"; loadPercent := Fin 0;
            flowState := "Idle"; isActive := false |} ]
  /\ exists counts timeline,
       calculateStageCounts (constructor None) belt = Ok counts
       /\ generateStageTimeline (constructor None) belt = Ok timeline
       /\ map timeline_id timeline = map id (beltStages (constructor None))
       /\ forall entry,
            In entry timeline ->
            exists c,
              obj_get (timeline_id entry) counts = Some c
              /\ c = (if String.eqb (timeline_id entry) "" then 0
                      else bagsInStage (constructor None) (timeline_id entry)
                             (bags_of belt))
              /\ (c = 0 ->
                  flowState entry = "Idle"%string
                  /\ loadPercent entry = Fin 0)
              /\ (c <> 0 -> flowState entry <> "Idle"%string)
              /\ (c <> 0 -> c = List.length (bags_of belt) ->
                  flowState entry = "Congested"%string
                  /\ loadPercent entry = Fin 100).
Proof.
  intros bag belt. split; [vm_compute; reflexivity|].
  apply timeline_flow_states.
  - discriminate.
  - split.
    + repeat constructor; simpl; intuition discriminate.
    + intros k [<-|[<-|[<-|[<-|[]]]]]; discriminate.
  - repeat constructor; discriminate.
  - reflexivity.
Defined.

(* ================================================================== *)
(** * The mini conveyor visualization *)
(* ================================================================== *)

Lemma obj_get_le_total (k : string) (o : object) (c : nat) :
  obj_get k o = Some c -> c <= total o.
Proof.
  unfold total. induction o as [|[k' v'] o IH]; simpl; [discriminate|].
  destruct (String.eqb k' k); [intros [= ->]; lia|].
  intros H. specialize (IH H). lia.
Qed.

Lemma filter_map_length {A B : Type} (f : A -> B) (p : B -> bool)
  (q : A -> bool) (l : list A) :
  (forall x, p (f x) = q x) ->
  List.length (filter p (map f l)) = List.length (filter q l).
Proof.
  intros H. induction l as [|x l IH]; [reflexivity|].
  cbn [map filter]. rewrite H. destruct (q x); simpl; now rewrite IH.
Qed.

Lemma Math_max_eight (w : num) :
  w <> NaN -> num_le (Fin 8) (JSArith.Math_max (Fin 8) w).
Proof.
  intros H. unfold JSArith.Math_max.
  destruct w as [| |q|]; cbn; try congruence.
  - unfold Qle. simpl. lia.
  - destruct (Qlt_bool 8 q) eqn:E; cbn.
    + apply Qlt_bool_iff in E. now apply Qlt_le_weak.
    + unfold Qle. simpl. lia.
  - exact I.
Qed.

Lemma toNum_not_nan (x : spec_float) :
  x <> S754_nan -> JSArith.toNum x <> NaN.
Proof. destruct x as [s|[|]| |s m e]; cbn; congruence. Qed.

(** X12. [generateMiniConveyorVisualization] gives the message that no
    data is available exactly when the stage table is empty, the belts are
    not a list, or the list is empty.  Otherwise, in a stage table with
    distinct ids, none of them [__proto__], and for belts whose bags are
    objects, it gives one segment for each stage, in table order, and
    exactly one of them is active. *)
Theorem mini_visualization_segments (this : Dashboard)
  (conveyorBelts : option (list (option Belt))) :
  (generateMiniConveyorVisualization this conveyorBelts = Ok None
   <-> beltStages this = [] \/ conveyorBelts = None
       \/ conveyorBelts = Some []) /\
  (forall belts,
      conveyorBelts = Some belts -> belts <> [] ->
      beltStages this <> [] ->
      distinct_ids (beltStages this) ->
      Forall bags_are_objects belts ->
      exists segments,
        generateMiniConveyorVisualization this conveyorBelts
        = Ok (Some segments)
        /\ map segment_id segments = map id (beltStages this)
        /\ List.length (filter segmentActive segments) = 1).
Proof.
  split.
  - unfold generateMiniConveyorVisualization, getBeltStages.
    destruct (beltStages this) as [|s l]; [tauto|].
    destruct conveyorBelts as [[|b belts]|]; try tauto.
    destruct (aggregateStageCounts _ _); cbn [bind]; split;
      try discriminate; intros [H|[H|H]]; discriminate.
  - intros belts -> Hbelts Hne Hids Hobj.
    assert (R : exists totals,
               aggregateStageCounts this (Some belts) = Ok totals).
    { unfold aggregateStageCounts. apply forEach_returns.
      intros s belt Hb. unfold addBeltCounts.
      rewrite Forall_forall in Hobj.
      destruct (calculateStageCounts_returns this belt (Hobj belt Hb))
        as (counts & ->).
      simpl. eauto. }
    destruct R as (totals & E).
    pose proof (aggregate_keys this belts totals E) as K.
    rewrite (zeroCounts_ids _ Hids) in K.
    destruct (getDominantStage (Some totals)) as [d|] eqn:D.
    2:{ unfold getDominantStage in D.
        destruct (Object_entries totals) eqn:O; [|discriminate].
        pose proof (proj1 (Object_entries_nil totals) O) as O'.
        rewrite O' in K. destruct (beltStages this); [congruence | discriminate]. }
    pose proof (getDominantStage_key totals d D) as Hd. rewrite K in Hd.
    unfold generateMiniConveyorVisualization, getBeltStages.
    destruct (beltStages this) as [|s0 l0] eqn:Es; [congruence|].
    rewrite <- Es in *. clear Es s0 l0.
    destruct belts as [|b0 belts0] eqn:Eb; [congruence|].
    rewrite <- Eb in *. rewrite E. cbn [bind]. rewrite D.
    eexists. split; [reflexivity|]. split; [now rewrite map_map|].
    rewrite (filter_map_length _ segmentActive
               (fun stage => String.eqb d (id stage)))
      by (intros x; reflexivity).
    rewrite <- (filter_map_length id (String.eqb d)
                  (fun stage => String.eqb d (id stage)))
      by (intros x; reflexivity).
    exact (filter_eqb_NoDup d (map id (beltStages this)) (proj1 Hids) Hd).
Qed.

Lemma mini_visualization_segments_witness :
  let bag q := Some {| bag_id := "b"; position := Number (Fin q) |} in
  let beltA :=
    Some {| belt_id := "A"; bags_on_belt := BagsArray [bag 10%Q; bag 30%Q] |} in
  let beltB :=
    Some {| belt_id := "B"; bags_on_belt := BagsArray [bag 20%Q] |} in
  exists segments,
    generateMiniConveyorVisualization (constructor None) (Some [beltA; beltB])
    = Ok (Some segments)
    /\ map segment_id segments = map id (beltStages (constructor None))
    /\ List.length (filter segmentActive segments) = 1.
Proof.
  intros bag beltA beltB.
  apply (proj2 (mini_visualization_segments (constructor None)
                  (Some [beltA; beltB])) [beltA; beltB] eq_refl).
  - discriminate.
  - discriminate.
  - split.
    + repeat constructor; simpl; intuition discriminate.
    + intros k [<-|[<-|[<-|[<-|[]]]]]; discriminate.
  - repeat constructor; discriminate.
Defined.

(** X13. In a non-empty stage table with distinct ids, none of them empty
    or [__proto__], and for belts whose bags are objects (fewer than 2^53
    in all), the segment of a stage without bags has width 0 and the
    segment of a stage with bags has a width of at least 8, whatever share
    of the bags the stage holds. *)
Theorem mini_visualization_widths (this : Dashboard)
  (belts : list (option Belt)) :
  belts <> [] ->
  NoDup (map id (beltStages this)) ->
  countable_ids (beltStages this) ->
  Forall bags_are_objects belts ->
  (Z.of_nat (bagsOnBelts belts) < 2 ^ 53)%Z ->
  exists totals segments,
    aggregateStageCounts this (Some belts) = Ok totals
    /\ generateMiniConveyorVisualization this (Some belts)
       = Ok (Some segments)
    /\ forall segment,
         In segment segments ->
         exists c,
           obj_get (segment_id segment) totals = Some c
           /\ (c = 0 -> width segment = Fin 0)
           /\ (c <> 0 -> num_le (Fin 8) (width segment)).
Proof.
  intros Hbelts Hnd Hids Hobj Hlt.
  destruct (aggregate_total this belts Hnd Hids Hobj) as (totals & E & T).
  pose proof (aggregate_keys this belts totals E) as K.
  assert (Hd : distinct_ids (beltStages this)).
  { split; [exact Hnd|]. intros k Hk. now apply (proj2 Hids). }
  rewrite (zeroCounts_ids _ Hd) in K.
  unfold generateMiniConveyorVisualization, getBeltStages.
  destruct (beltStages this) as [|s0 l0] eqn:Es; [now destruct Hids|].
  rewrite <- Es in *. clear Es s0 l0.
  destruct belts as [|b0 belts0] eqn:Eb; [congruence|].
  rewrite <- Eb in *. rewrite E. cbn [bind].
  eexists totals, _. split; [reflexivity|]. split; [reflexivity|].
  intros segment Hin. apply in_map_iff in Hin. destruct Hin as (s & <- & Hs).
  cbn [segment_id width].
  assert (Hk : In (id s) (map fst totals)).
  { rewrite K. now apply in_map. }
  destruct (In_obj_get _ _ Hk) as (c & Hc). exists c. rewrite Hc.
  split; [reflexivity|].
  rewrite Object_values_sum, T.
  pose proof (obj_get_le_total _ _ _ Hc) as Hle. rewrite T in Hle.
  set (totalBags := if bagsOnBelts belts =? 0 then 1 else bagsOnBelts belts).
  assert (Htb : 0 < totalBags /\ (Z.of_nat totalBags < 2 ^ 53)%Z).
  { subst totalBags. destruct (Nat.eqb_spec (bagsOnBelts belts) 0); lia. }
  split.
  - intros ->. rewrite JSArithFacts.percentage_zero by tauto. reflexivity.
  - intros Hnz. destruct c as [|c]; [congruence|]. cbn [Nat.ltb Nat.leb].
    apply Math_max_eight. apply toNum_not_nan.
    apply JSArithFacts.percentage_not_nan; [tauto | lia | tauto].
Qed.

Lemma mini_visualization_widths_witness :
  let bag q := Some {| bag_id := "b"; position := Number (Fin q) |} in
  let beltA :=
    Some {| belt_id := "A";
            bags_on_belt := BagsArray (repeat (bag 10%Q) 30) |} in
  let beltB :=
    Some {| belt_id := "B"; bags_on_belt := BagsArray [bag 60%Q] |} in
  generateMiniConveyorVisualization (constructor None) (Some [beltA; beltB])
  = Ok (Some [ {| segment_id := "checking";
                  width := Fin (6809878468806194 # 70368744177664);
                  segmentActive := true |};
               {| segment_id := "sorting"; width := Fin 0;
                  segmentActive := false |};
               {| segment_id := "security"; width := Fin 8;
                  segmentActive := false |};
               {| segment_id := "boarding"; width := Fin 0;
                  segmentActive := false |} ])
  /\ exists totals segments,
       aggregateStageCounts (constructor None) (Some [beltA; beltB])
       = Ok totals
       /\ generateMiniConveyorVisualization (constructor None)
            (Some [beltA; beltB]) = Ok (Some segments)
       /\ forall segment,
            In segment segments ->
            exists c,
              obj_get (segment_id segment) totals = Some c
              /\ (c = 0 -> width segment = Fin 0)
              /\ (c <> 0 -> num_le (Fin 8) (width segment)).
Proof.
  intros bag beltA beltB. split; [vm_compute; reflexivity|].
  apply mini_visualization_widths.
  - discriminate.
  - repeat constructor; simpl; intuition discriminate.
  - split; [discriminate|].
    intros k [<-|[<-|[<-|[<-|[]]]]]; split; discriminate.
  - repeat constructor; discriminate.
  - reflexivity.
Defined.

(* ================================================================== *)
(** * The page: collapsing and expanding *)
(* ================================================================== *)

Module PageFacts.
Import Page.

Lemma contains_add (u t : string) (l : list string) :
  contains u (add t l) = String.eqb u t || contains u l.
Proof.
  unfold add. destruct (contains t l) eqn:C.
  - destruct (String.eqb_spec u t) as [->|N]; [now rewrite C | reflexivity].
  - unfold contains. rewrite existsb_app. cbn [existsb].
    rewrite orb_false_r. apply orb_comm.
Qed.

Lemma contains_remove (u t : string) (l : list string) :
  contains u (remove t l) = negb (String.eqb u t) && contains u l.
Proof.
  unfold contains, remove. induction l as [|c l IH]; cbn [filter existsb].
  - now rewrite andb_false_r.
  - destruct (String.eqb_spec t c) as [->|N]; cbn [negb existsb].
    + rewrite IH. destruct (String.eqb_spec u c) as [->|N']; cbn [negb].
      * reflexivity.
      * reflexivity.
    + rewrite IH. destruct (String.eqb_spec u c) as [->|N'].
      * destruct (String.eqb_spec c t) as [E|_]; [now subst | reflexivity].
      * reflexivity.
Qed.


Lemma set_display_keeps d : keeps_id (set_display d).
Proof. intros e. reflexivity. Qed.

Lemma set_textContent_keeps t : keeps_id (set_textContent t).
Proof. intros e. reflexivity. Qed.

Lemma on_classList_keeps f : keeps_id (on_classList f).
Proof. intros e. reflexivity. Qed.

Create HintDb page.

#[export] Hint Resolve set_display_keeps set_textContent_keeps
  on_classList_keeps : page.

Lemma get_update_same (i : string) (f : Element -> Element) (doc : Document) :
  keeps_id f ->
  getElementById i (update i f doc) = option_map f (getElementById i doc).
Proof.
  intros K. unfold getElementById.
  induction doc as [|e rest IH]; cbn [update find]; [reflexivity|].
  destruct (hasId i e) eqn:H; cbn [find].
  - unfold hasId in *. rewrite K, H. reflexivity.
  - rewrite H. exact IH.
Qed.

Lemma get_update_other (i j : string) (f : Element -> Element)
  (doc : Document) :
  i <> j -> keeps_id f ->
  getElementById j (update i f doc) = getElementById j doc.
Proof.
  intros N K. unfold getElementById.
  induction doc as [|e rest IH]; cbn [update find]; [reflexivity|].
  destruct (hasId i e) eqn:H; cbn [find].
  - unfold hasId in *. rewrite K.
    apply String.eqb_eq in H.
    destruct (String.eqb_spec (elem_id e) j) as [E|_]; [congruence|].
    reflexivity.
  - rewrite IH. reflexivity.
Qed.

Lemma update_absent (i : string) (f : Element -> Element) (doc : Document) :
  getElementById i doc = None -> update i f doc = doc.
Proof.
  unfold getElementById.
  induction doc as [|e rest IH]; cbn [update find]; [reflexivity|].
  destruct (hasId i e); [discriminate|].
  intros H. now rewrite IH.
Qed.

Lemma update_fixed (i : string) (f : Element -> Element) (doc : Document) :
  (forall e, getElementById i doc = Some e -> f e = e) ->
  update i f doc = doc.
Proof.
  unfold getElementById.
  induction doc as [|e rest IH]; cbn [update find]; [reflexivity|].
  destruct (hasId i e).
  - intros H. now rewrite H.
  - intros H. now rewrite IH.
Qed.


Lemma get_update_some (i j : string) (f : Element -> Element)
  (doc : Document) (e : Element) :
  keeps_id f ->
  getElementById j doc = Some e ->
  exists e', getElementById j (update i f doc) = Some e'.
Proof.
  intros K G. destruct (String.eqb_spec i j) as [->|N].
  - rewrite get_update_same, G by exact K. now eexists.
  - rewrite get_update_other, G by assumption. now eexists.
Qed.

Lemma toggle_section_exists (sectionName : string) (doc : Document)
  (content : Element) :
  getElementById (sectionName ++ "-content") doc = Some content ->
  exists content',
    getElementById (sectionName ++ "-content")
      (toggleSectionContent sectionName doc) = Some content'.
Proof.
  intros G. unfold toggleSectionContent. rewrite G.
  destruct (contains "collapsed" (classList content)); cbv zeta.
  - destruct (get_update_some (sectionName ++ "-content")
                (sectionName ++ "-content")
                (on_classList (remove "collapsed")) doc content
                (on_classList_keeps _) G) as [e1 G1].
    destruct (get_update_some (sectionName ++ "-content")
                (sectionName ++ "-content")
                (on_classList (add "expanded")) _ e1
                (on_classList_keeps _) G1) as [e2 G2].
    exact (get_update_some _ _ _ _ e2 (on_classList_keeps _) G2).
  - destruct (get_update_some (sectionName ++ "-content")
                (sectionName ++ "-content")
                (on_classList (remove "expanded")) doc content
                (on_classList_keeps _) G) as [e1 G1].
    destruct (get_update_some (sectionName ++ "-content")
                (sectionName ++ "-content")
                (on_classList (add "collapsed")) _ e1
                (on_classList_keeps _) G1) as [e2 G2].
    exact (get_update_some _ _ _ _ e2 (on_classList_keeps _) G2).
Qed.

Lemma update_idem (i : string) (f : Element -> Element) (doc : Document) :
  keeps_id f -> (forall e, f (f e) = f e) ->
  update i f (update i f doc) = update i f doc.
Proof.
  intros K I. induction doc as [|e rest IH]; cbn [update]; [reflexivity|].
  destruct (hasId i e) eqn:H; cbn [update].
  - unfold hasId in *. now rewrite K, H, I.
  - now rewrite H, IH.
Qed.

Lemma update_comm (i j : string) (f g : Element -> Element)
  (doc : Document) :
  i <> j -> keeps_id f -> keeps_id g ->
  update i f (update j g doc) = update j g (update i f doc).
Proof.
  intros N Kf Kg. induction doc as [|e rest IH]; cbn [update]; [reflexivity|].
  destruct (hasId j e) eqn:Hj, (hasId i e) eqn:Hi; cbn [update].
  - unfold hasId in *. apply String.eqb_eq in Hj, Hi. congruence.
  - unfold hasId in *. now rewrite Kg, Hi, Hj.
  - unfold hasId in *. now rewrite Kf, Hi, Hj.
  - now rewrite Hi, Hj, IH.
Qed.

Lemma add_idem (t : string) (l : list string) : add t (add t l) = add t l.
Proof.
  unfold add at 1. now rewrite contains_add, String.eqb_refl.
Qed.

Lemma remove_idem (t : string) (l : list string) :
  remove t (remove t l) = remove t l.
Proof.
  unfold remove. induction l as [|c l IH]; cbn [filter]; [reflexivity|].
  destruct (negb (String.eqb t c)) eqn:E; cbn [filter].
  - now rewrite E, IH.
  - exact IH.
Qed.

Lemma occurs_append (c : ascii) (a b : string) :
  occurs c (a ++ b) = occurs c a || occurs c b.
Proof.
  induction a as [|d a IH]; cbn [String.append occurs]; [reflexivity|].
  now rewrite IH, orb_assoc.
Qed.

Lemma occurs_replace_underscores (key : string) :
  occurs "_" (replace_underscores key) = false.
Proof.
  induction key as [|c key IH]; cbn [replace_underscores occurs];
    [reflexivity|].
  rewrite IH, orb_false_r.
  destruct (Ascii.eqb c "_") eqn:E; [reflexivity|].
  rewrite Ascii.eqb_sym. exact E.
Qed.

Lemma occurs_concat (c : ascii) (sep : string) (l : list string) :
  occurs c sep = false ->
  (forall s, In s l -> occurs c s = false) ->
  occurs c (String.concat sep l) = false.
Proof.
  intros S. induction l as [|s l IH]; intros A; [reflexivity|].
  cbn [String.concat]. destruct l as [|s' l].
  - apply A. now left.
  - rewrite !occurs_append, S, (A s (or_introl eq_refl)). cbn [orb].
    apply IH. intros x X. apply A. now right.
Qed.

Ltac page_get :=
  repeat first
    [ rewrite get_update_same by auto with page
    | rewrite get_update_other by (auto with page) ].

End PageFacts.

Import Page PageFacts.





(** X16. [autoExpandAlerts] looks at the inline display only.  On a widget
    whose inline display is [none] it does what [toggleWidgetContent] does;
    on any other it does nothing.  So it does not reopen a widget that
    [toggleWidgetContent] has collapsed: that widget keeps the class
    [collapsed]. *)
Theorem auto_expand_reads_inline_display (doc : Document)
  (content : Element) :
  getElementById "ai-alerts-content" doc = Some content ->
  (style_display content = "none"%string ->
   autoExpandAlerts doc = toggleWidgetContent "ai-alerts" doc) /\
  (style_display content <> "none"%string -> autoExpandAlerts doc = doc) /\
  (widgetCollapsed content = false ->
   autoExpandAlerts (toggleWidgetContent "ai-alerts" doc)
   = toggleWidgetContent "ai-alerts" doc
   /\ exists content',
        getElementById "ai-alerts-content"
          (toggleWidgetContent "ai-alerts" doc) = Some content'
        /\ contains "collapsed" (classList content') = true).
Proof.
  intros G. split; [|split].
  - intros E. unfold autoExpandAlerts, toggleWidgetContent.
    cbn [String.append]. rewrite G, E. reflexivity.
  - intros N. unfold autoExpandAlerts. rewrite G.
    apply String.eqb_neq in N. now rewrite N.
  - intros W.
    assert (T : getElementById "ai-alerts-content"
                  (toggleWidgetContent "ai-alerts" doc)
                = Some (on_classList (add "collapsed")
                          (on_classList (remove "expanded") content))).
    { unfold toggleWidgetContent. cbn [String.append]. rewrite G.
      fold (widgetCollapsed content). rewrite W. cbv zeta.
      rewrite get_update_other by (auto with page; discriminate).
      page_get. rewrite G. reflexivity. }
    split.
    + unfold autoExpandAlerts at 1. rewrite T.
      cbn [on_classList style_display].
      unfold widgetCollapsed in W. apply orb_false_iff in W.
      now rewrite (proj1 W).
    + eexists. split; [exact T|].
      cbn [on_classList classList]. rewrite contains_add. reflexivity.
Qed.

(** The witness of X16: an expanded alerts widget, collapsed by its
    header and then left alone by [autoExpandAlerts]. *)
Lemma auto_expand_reads_inline_display_witness :
  let content := {| elem_id := "ai-alerts-content"; style_display := "block";
                    classList := ["expanded"]; textContent := "" |}%string in
  toggleWidgetContent "ai-alerts" [content]
  = [ {| elem_id := "ai-alerts-content"; style_display := "block";
         classList := ["collapsed"]; textContent := "" |} ]%string
  /\ autoExpandAlerts (toggleWidgetContent "ai-alerts" [content])
     = toggleWidgetContent "ai-alerts" [content].
Proof.
  cbv zeta. split; [reflexivity|].
  exact (proj1
           (proj2 (proj2
              (auto_expand_reads_inline_display
                 [ {| elem_id := "ai-alerts-content";
                      style_display := "block";
                      classList := ["expanded"];
                      textContent := "" |} ]%string
                 {| elem_id := "ai-alerts-content"; style_display := "block";
                    classList := ["expanded"]; textContent := "" |}%string
                 eq_refl))
           eq_refl)).
Defined.

(** X17. [autoExpandStaffAlerts] looks at the class [collapsed].  On a
    collapsed section it does what [toggleSectionContent] does, on any
    other it does nothing; after it the section is never collapsed, so it
    reopens a section that [toggleSectionContent] has collapsed. *)
Theorem auto_expand_staff_reopens (doc : Document) (content : Element) :
  getElementById "ai-alerts-section-content" doc = Some content ->
  (contains "collapsed" (classList content) = true ->
   autoExpandStaffAlerts doc = toggleSectionContent "ai-alerts-section" doc)
  /\ (contains "collapsed" (classList content) = false ->
      autoExpandStaffAlerts doc = doc)
  /\ (exists content',
        getElementById "ai-alerts-section-content"
          (autoExpandStaffAlerts doc) = Some content'
        /\ contains "collapsed" (classList content') = false)
  /\ (exists content',
        getElementById "ai-alerts-section-content"
          (autoExpandStaffAlerts
             (toggleSectionContent "ai-alerts-section" doc)) = Some content'
        /\ contains "collapsed" (classList content') = false).
Proof.
  assert (R : forall doc content,
             getElementById "ai-alerts-section-content" doc = Some content ->
             exists content',
               getElementById "ai-alerts-section-content"
                 (autoExpandStaffAlerts doc) = Some content'
               /\ contains "collapsed" (classList content') = false).
  { clear. intros doc content G. unfold autoExpandStaffAlerts. rewrite G.
    destruct (contains "collapsed" (classList content)) eqn:W; cbv zeta.
    - eexists. split.
      + rewrite get_update_other by (auto with page; discriminate).
        page_get. rewrite G. reflexivity.
      + cbn [on_classList classList option_map].
        rewrite contains_add, contains_remove. reflexivity.
    - exists content. split; [exact G | exact W]. }
  intros G. split; [|split; [|split]].
  - intros W. unfold autoExpandStaffAlerts, toggleSectionContent.
    cbn [String.append]. rewrite G, W. reflexivity.
  - intros W. unfold autoExpandStaffAlerts. now rewrite G, W.
  - exact (R doc content G).
  - destruct (toggle_section_exists "ai-alerts-section" doc content G)
      as [toggled T].
    exact (R _ toggled T).
Qed.

(** The witness of X17: a section collapsed by its header and reopened. *)
Lemma auto_expand_staff_reopens_witness :
  let content := {| elem_id := "ai-alerts-section-content";
                    style_display := "";
                    classList := ["expanded"]; textContent := "" |}%string in
  toggleSectionContent "ai-alerts-section" [content]
  = [ {| elem_id := "ai-alerts-section-content"; style_display := "";
         classList := ["collapsed"]; textContent := "" |} ]%string
  /\ autoExpandStaffAlerts (toggleSectionContent "ai-alerts-section" [content])
     = [content]
  /\ autoExpandStaffAlerts [content] = [content].
Proof.
  cbv zeta. split; [reflexivity|]. split; [reflexivity|].
  exact (proj1
           (proj2
              (auto_expand_staff_reopens
                 [ {| elem_id := "ai-alerts-section-content";
                      style_display := "";
                      classList := ["expanded"];
                      textContent := "" |} ]%string
                 {| elem_id := "ai-alerts-section-content";
                    style_display := "";
                    classList := ["expanded"]; textContent := "" |}%string
                 eq_refl))
           eq_refl).
Defined.

(** X18. When the banner and its message exist, [notifyDashboardErrors]
    hides the banner (class [d-none]) and empties the message exactly when
    there is no error key; the message never contains an underscore; a
    second call with the same errors changes nothing; and no other element
    changes. *)
Theorem notify_dashboard_errors (errors : option (list string))
  (doc : Document) (banner message : Element) :
  getElementById "dashboard-error-banner" doc = Some banner ->
  getElementById "dashboard-error-message" doc = Some message ->
  exists banner' message',
    getElementById "dashboard-error-banner"
      (notifyDashboardErrors errors doc) = Some banner'
    /\ getElementById "dashboard-error-message"
         (notifyDashboardErrors errors doc) = Some message'
    /\ (contains "d-none" (classList banner') = true
        <-> errorKeys errors = [])
    /\ (textContent message' = ""%string <-> errorKeys errors = [])
    /\ occurs "_" (textContent message') = false
    /\ notifyDashboardErrors errors (notifyDashboardErrors errors doc)
       = notifyDashboardErrors errors doc
    /\ (forall i,
          i <> "dashboard-error-banner"%string ->
          i <> "dashboard-error-message"%string ->
          getElementById i (notifyDashboardErrors errors doc)
          = getElementById i doc).
Proof.
  intros B M.
  assert (D : "dashboard-error-banner"%string
              <> "dashboard-error-message"%string) by discriminate.
  assert (D' : "dashboard-error-message"%string
               <> "dashboard-error-banner"%string) by discriminate.
  assert (E : notifyDashboardErrors errors doc
              = match errorKeys errors with
                | [] =>
                    update "dashboard-error-message" (set_textContent "")
                      (update "dashboard-error-banner"
                         (on_classList (add "d-none")) doc)
                | _ :: _ =>
                    update "dashboard-error-banner"
                      (on_classList (remove "d-none"))
                      (update "dashboard-error-message"
                         (set_textContent
                            ("Some widgets are still loading: "
                             ++ String.concat ", "
                                  (map replace_underscores
                                       (errorKeys errors)))%string) doc)
                end).
  { unfold notifyDashboardErrors. rewrite B, M. reflexivity. }
  rewrite E. clear E.
  destruct (errorKeys errors) as [|key keys] eqn:K.
  - do 2 eexists.
    split; [page_get; rewrite B; reflexivity|].
    split; [page_get; rewrite M; reflexivity|].
    cbn [on_classList set_textContent classList textContent option_map].
    rewrite contains_add. cbn.
    split; [tauto|]. split; [tauto|]. split; [reflexivity|].
    split.
    + unfold notifyDashboardErrors. page_get. rewrite B, M, K.
      cbn [option_map]. cbv zeta.
      rewrite (update_comm "dashboard-error-banner" "dashboard-error-message")
        by auto with page.
      rewrite (update_idem "dashboard-error-message") by (auto with page).
      rewrite (update_idem "dashboard-error-banner");
        [reflexivity | auto with page |].
      intros e. unfold on_classList.
      cbn [classList elem_id style_display textContent].
      now rewrite add_idem.
    + intros i N1 N2. page_get. reflexivity.
  - do 2 eexists.
    split; [page_get; rewrite B; reflexivity|].
    split; [page_get; rewrite M; reflexivity|].
    cbn [on_classList set_textContent classList textContent option_map].
    rewrite contains_remove, String.eqb_refl. cbn [negb andb].
    split; [split; discriminate|].
    split; [cbn [String.append]; split; discriminate|].
    split.
    + rewrite occurs_append. apply orb_false_iff. split; [reflexivity|].
      apply occurs_concat; [reflexivity|].
      intros s S. apply in_map_iff in S. destruct S as (k & <- & _).
      apply occurs_replace_underscores.
    + split.
      * unfold notifyDashboardErrors. page_get. rewrite B, M, K.
        cbn [option_map]. cbv zeta.
        rewrite (update_comm "dashboard-error-message"
                   "dashboard-error-banner") by auto with page.
        rewrite (update_idem "dashboard-error-banner");
          [| auto with page
           | intros e; unfold on_classList;
             cbn [classList elem_id style_display textContent];
             now rewrite remove_idem].
        rewrite update_idem by (auto with page). reflexivity.
      * intros i N1 N2. page_get. reflexivity.
Qed.

(** The witness of X18: two datasets failed to load. *)
Lemma notify_dashboard_errors_witness :
  let banner := {| elem_id := "dashboard-error-banner"; style_display := "";
                   classList := ["alert"; "d-none"];
                   textContent := "" |}%string in
  let message := {| elem_id := "dashboard-error-message"; style_display := "";
                    classList := []; textContent := "" |}%string in
  let errors := Some ["passenger_flow"; "queue_status"]%string in
  notifyDashboardErrors errors [banner; message]
  = [ {| elem_id := "dashboard-error-banner"; style_display := "";
         classList := ["alert"]; textContent := "" |};
      {| elem_id := "dashboard-error-message"; style_display := "";
         classList := [];
         textContent :=
           "Some widgets are still loading: passenger flow, queue status" |}
    ]%string
  /\ notifyDashboardErrors errors
       (notifyDashboardErrors errors [banner; message])
     = notifyDashboardErrors errors [banner; message].
Proof.
  cbv zeta. split; [reflexivity|].
  destruct (notify_dashboard_errors
              (Some ["passenger_flow"; "queue_status"]%string)
              [ {| elem_id := "dashboard-error-banner"; style_display := "";
                   classList := ["alert"; "d-none"]; textContent := "" |};
                {| elem_id := "dashboard-error-message"; style_display := "";
                   classList := []; textContent := "" |} ]%string
              {| elem_id := "dashboard-error-banner"; style_display := "";
                 classList := ["alert"; "d-none"];
                 textContent := "" |}%string
              {| elem_id := "dashboard-error-message"; style_display := "";
                 classList := []; textContent := "" |}%string
              eq_refl eq_refl)
    as (banner' & message' & _ & _ & _ & _ & _ & I & _).
  exact I.
Defined.

(* ================================================================== *)
(** * The actions of the staff portal *)
(* ================================================================== *)

Import StaffActions.

Lemma prototype_methods :
  prototype
  = [ ("monitorBelt", monitorBelt);
      ("scheduleMaintenance", scheduleMaintenance');
      ("showBeltDetails", showBeltDetails);
      ("assignStaff", assignStaff) ]%string.
Proof. reflexivity. Qed.

(** X19. The class defines [scheduleMaintenance] twice and the second
    definition is the one [takeAction] reaches: the action [maintenance]
    opens the scheduling interface for every belt, and no action ever
    announces that maintenance is scheduled for a belt.  Every action is
    logged first, an action other than [monitor], [maintenance] and
    [details] does nothing else, and no action throws. *)
Theorem maintenance_action_opens_interface :
  (forall beltId,
      takeAction beltId "maintenance"
      = [ console_log ("Taking action maintenance on belt " ++ beltId);
          alert "Maintenance scheduling interface opened" ]%string) /\
  (forall beltId action belt,
      ~ In (alert ("Maintenance scheduled for belt " ++ belt
                   ++ " - Maintenance team notified")%string)
           (takeAction beltId action)) /\
  (forall beltId action,
      action <> "monitor"%string -> action <> "maintenance"%string ->
      action <> "details"%string ->
      takeAction beltId action
      = [console_log ("Taking action " ++ action ++ " on belt "
                      ++ beltId)%string]) /\
  (forall beltId action,
      exists rest,
        takeAction beltId action
        = console_log ("Taking action " ++ action ++ " on belt "
                       ++ beltId)%string :: rest
        /\ ~ In throw_TypeError rest).
Proof.
  split; [|split; [|split]].
  - intros beltId. reflexivity.
  - intros beltId action belt. unfold takeAction, call.
    rewrite prototype_methods.
    destruct (String.eqb action "monitor");
      [|destruct (String.eqb action "maintenance");
        [|destruct (String.eqb action "details")]];
      cbn; intros H; repeat destruct H as [H|H]; try discriminate H;
      try exact H.
  - intros beltId action N1 N2 N3. unfold takeAction.
    apply String.eqb_neq in N1, N2, N3. now rewrite N1, N2, N3.
  - intros beltId action. eexists. split; [reflexivity|].
    unfold call. rewrite prototype_methods.
    destruct (String.eqb action "monitor");
      [|destruct (String.eqb action "maintenance");
        [|destruct (String.eqb action "details")]];
      cbn; intros H; repeat destruct H as [H|H]; try discriminate H;
      try exact H.
Qed.
